(** * The IAVL commit store (store/iavl/store.go)

    A shallow embedding of the versioned commit store that binds the
    key-value interface of the SDK to an authenticated, versioned tree.

    The store is written against the [Tree] interface of its package; the
    tree itself lives in an external library.  The embedding follows that
    split: the interface is a type class ([TreeAPI]), every method of
    [Store] is translated from its Go body on top of that class, and the
    contract of the tree is given by further classes ([MapContract],
    [VersionContract], [WrapperContract]), each assumed only by the
    theorems that need it.  A small reference tree at the end
    of the definitions implements both classes and is used to run the
    store on concrete inputs.

    Go idioms and their rendering here:
    - [[]byte] is [bytes], an optional byte string whose [None] is Go's nil;
    - [int64] is [Z], with the wrap-around of arithmetic written out;
    - a method with a pointer receiver that mutates [st.tree] is a
      computation in the state monad [M Store];
    - [panic] is the [Panicked] outcome of that monad, carrying the store
      as it was when the panic was raised;
    - a Go pair [(x, error)] is a sum [x + error].
    The [telemetry.MeasureSince] calls only feed a metrics sink and are
    left out. *)

From stdpp Require Import base option list strings gmap sorting pretty.
From Stdlib Require Import ZArith Lia.

Local Open Scope string_scope.
Local Open Scope Z_scope.

(** ** Bytes and 64-bit integers *)

(** A Go byte slice: [None] is the nil slice, [Some s] a slice holding the
    bytes of [s] (possibly none). *)
Definition bytes : Type := option string.

(** Go's [len] on a byte slice; the nil slice has length 0. *)
Definition len (b : bytes) : nat :=
  match b with
  | None => 0%nat
  | Some s => String.length s
  end.

Definition MinInt64 : Z := - 2 ^ 63.
Definition MaxInt64 : Z := 2 ^ 63 - 1.

(** The value an [int64] holds after an operation whose mathematical
    result is [z]. *)
Definition wrap64 (z : Z) : Z := (z + 2 ^ 63) mod 2 ^ 64 - 2 ^ 63.

(** [a - b] on [int64]. *)
Definition sub64 (a b : Z) : Z := wrap64 (a - b).

(** The conversion [uint64(z)] of an [int64]: a negative value wraps. *)
Definition uint64 (z : Z) : Z := z mod 2 ^ 64.

(** ** Errors and panics *)

(** The error values store.go creates or passes on. *)
Inductive error : Type :=
  | ErrVersionDoesNotExist
      (* iavl.ErrVersionDoesNotExist *)
  | ErrTxDecode
      (* sdkerrors.ErrTxDecode *)
  | ErrUnknownRequest
      (* sdkerrors.ErrUnknownRequest *)
  | Wrap (e : error) (description : string)
      (* sdkerrors.Wrap(e, description) *)
  | Wrapf (e : error) (format arg : string)
      (* sdkerrors.Wrapf(e, format, arg) *)
  | ErrExportFailed (version : Z) (cause : error)
      (* fmt.Errorf("iavl export failed for version %v: %w", version, err) *)
  | ErrExportNoTree (version : Z)
      (* fmt.Errorf("iavl export failed: unable to fetch tree for version %v", version) *)
  | ErrNoMutableTree
      (* errors.New("iavl import failed: unable to find mutable tree") *)
  | ErrMarshal (cause : error)
      (* fmt.Errorf("failed to marshal KV pairs: %w", err) *)
  | ErrTree (msg : string)
      (* an error produced inside the tree library *).

(** [iavl.ErrVersionDoesNotExist.Error()]. *)
Definition ErrVersionDoesNotExist_Error : string := "version does not exist".

(** The values store.go panics with. *)
Inductive panic_value : Type :=
  | InvalidKey
      (* raised by types.AssertValidKey *)
  | InvalidValue
      (* raised by types.AssertValidValue *)
  | PanicString (msg : string)
      (* panic("...") *)
  | PanicError (e : error)
      (* panic(err) *)
  | PanicSprintf (format : string) (e : error)
      (* panic(fmt.Sprintf(format, err.Error())) *)
  | PanicTree (method : string)
      (* a panic raised inside a Tree implementation by [method] *).

(** ** The state monad with panics *)

Inductive outcome (A : Type) : Type :=
  | Ret (a : A)
  | Panicked (p : panic_value).
Arguments Ret {A} a.
Arguments Panicked {A} p.

(** A computation over a mutable object of type [S]: it ends with a result
    or a panic, and with the object as the computation left it. *)
Definition M (S A : Type) : Type := S → outcome A * S.

Definition ret {S A} (a : A) : M S A := fun s => (Ret a, s).

Definition panic {S A} (p : panic_value) : M S A := fun s => (Panicked p, s).

Definition bind {S A B} (c : M S A) (k : A → M S B) : M S B :=
  fun s =>
    match c s with
    | (Ret a, s') => k a s'
    | (Panicked p, s') => (Panicked p, s')
    end.

Definition gets {S A} (f : S → A) : M S A := fun s => (Ret (f s), s).

Notation "'let*' x := c 'in' k" := (bind c (fun x => k))
  (at level 10, x name, c at level 100, k at level 200,
   format "'[v' 'let*'  x  :=  c  'in' '/' k ']'").
Notation "'do*' c 'in' k" := (bind c (fun _ => k))
  (at level 10, c at level 100, k at level 200,
   format "'[v' 'do*'  c  'in' '/' k ']'").

(** A computation that leaves the object it runs on as it found it. *)
Definition read_only {S A} (c : M S A) : Prop := ∀ s, (c s).2 = s.

(** ** Wire types *)

(** kv.Pair *)
Record Pair : Type := { pair_Key : bytes; pair_Value : bytes }.

(** tmcrypto.ProofOp *)
Record ProofOp : Type := { op_Type : string; op_Key : bytes; op_Data : bytes }.

(** tmcrypto.ProofOps *)
Record ProofOps : Type := { Ops : list ProofOp }.

(** abci.RequestQuery *)
Record RequestQuery : Type := {
  req_Data : bytes;
  req_Path : string;
  req_Height : Z;
  req_Prove : bool;
}.

(** abci.ResponseQuery; [res_ProofOps] is a pointer, [None] is nil.  A
    response is a hard failure when its [res_Code] is not 0. *)
Record ResponseQuery : Type := {
  res_Code : N;
  res_Log : string;
  res_Key : bytes;
  res_Value : bytes;
  res_ProofOps : option ProofOps;
  res_Height : Z;
  res_Codespace : string;
}.

(** The zero value of abci.ResponseQuery, which the named result [res] of
    [Query] starts from. *)
Definition zeroResponse : ResponseQuery :=
  {| res_Code := 0%N; res_Log := ""; res_Key := None; res_Value := None;
     res_ProofOps := None; res_Height := 0; res_Codespace := "" |}.

Definition with_Height (res : ResponseQuery) (h : Z) : ResponseQuery :=
  {| res_Code := res_Code res; res_Log := res_Log res; res_Key := res_Key res;
     res_Value := res_Value res; res_ProofOps := res_ProofOps res;
     res_Height := h; res_Codespace := res_Codespace res |}.

Definition with_Key (res : ResponseQuery) (k : bytes) : ResponseQuery :=
  {| res_Code := res_Code res; res_Log := res_Log res; res_Key := k;
     res_Value := res_Value res; res_ProofOps := res_ProofOps res;
     res_Height := res_Height res; res_Codespace := res_Codespace res |}.

Definition with_Log (res : ResponseQuery) (l : string) : ResponseQuery :=
  {| res_Code := res_Code res; res_Log := l; res_Key := res_Key res;
     res_Value := res_Value res; res_ProofOps := res_ProofOps res;
     res_Height := res_Height res; res_Codespace := res_Codespace res |}.

Definition with_Value (res : ResponseQuery) (v : bytes) : ResponseQuery :=
  {| res_Code := res_Code res; res_Log := res_Log res; res_Key := res_Key res;
     res_Value := v; res_ProofOps := res_ProofOps res;
     res_Height := res_Height res; res_Codespace := res_Codespace res |}.

Definition with_ProofOps (res : ResponseQuery) (p : option ProofOps) : ResponseQuery :=
  {| res_Code := res_Code res; res_Log := res_Log res; res_Key := res_Key res;
     res_Value := res_Value res; res_ProofOps := p;
     res_Height := res_Height res; res_Codespace := res_Codespace res |}.

(** types.CommitID *)
Record CommitID : Type := { Version : Z; Hash : bytes }.

(** ** The tree the store is written against *)

(** The [Tree] interface of the package (tree.go) together with what
    store.go uses of the tree library: the type [*iavl.ImmutableTree], the
    wrapper [immutableTree] that turns one into a [Tree], the exporter and
    the two proof constructors.

    Methods that write are computations over the tree; methods that only
    read are functions of it.  An iterator is given by the pairs it yields,
    in the order it yields them. *)
Class TreeAPI : Type := {
  Tree : Type;
  ImmutableTree : Type;
  Exporter : Type;
  CommitmentProof : Type;
  (* interface Tree *)
  tree_Has : Tree → bytes → bool;
  tree_Get : Tree → bytes → bytes;
  tree_Set : bytes → bytes → M Tree bool;
  tree_Remove : bytes → M Tree (bytes * bool);
  tree_SaveVersion : M Tree (bytes * Z * option error);
  tree_DeleteVersions : list Z → M Tree (option error);
  tree_SetInitialVersion : Z → M Tree unit;
  tree_Version : Tree → Z;
  tree_Hash : Tree → bytes;
  tree_VersionExists : Tree → Z → bool;
  tree_GetVersioned : Tree → bytes → Z → bytes;
  tree_GetImmutable : Tree → Z → ImmutableTree + error;
  tree_Iterator : Tree → bytes → bytes → bool → list Pair;
  (* dynamic types behind the interface *)
  immutableTree : ImmutableTree → Tree;
      (* &immutableTree{iTree} *)
  as_immutableTree : Tree → option ImmutableTree;
      (* tree.( *immutableTree ), None when the assertion fails *)
  isMutableTree : Tree → bool;
      (* whether tree.( *iavl.MutableTree ) succeeds *)
  (* iavl.ImmutableTree *)
  zeroImmutableTree : ImmutableTree;
      (* &iavl.ImmutableTree{} *)
  it_Has : ImmutableTree → bytes → bool;
  it_Get : ImmutableTree → bytes → bytes;
  it_Version : ImmutableTree → Z;
  it_Export : ImmutableTree → Exporter;
  it_GetMembershipProof : ImmutableTree → bytes → CommitmentProof + error;
  it_GetNonMembershipProof : ImmutableTree → bytes → CommitmentProof + error;
}.

(** What store.go calls in the packages store/types, types/errors and
    types/kv. *)
Class StoreDeps {api : TreeAPI} : Type := {
  validKey : bytes → bool;
      (* the keys types.AssertValidKey lets pass *)
  validValue : bytes → bool;
      (* the values types.AssertValidValue lets pass *)
  QueryResult : error → ResponseQuery;
      (* sdkerrors.QueryResult *)
  PrefixEndBytes : bytes → bytes;
      (* types.PrefixEndBytes, the end of the range of keys with a prefix *)
  Pairs_Marshal : list Pair → bytes + error;
      (* kv.Pairs.Marshal *)
  CommitmentOp_ProofOp : bytes → CommitmentProof → ProofOp;
      (* types.NewIavlCommitmentOp(key, proof).ProofOp() *)
}.

(** ** The store *)

Section Store.
Context {api : TreeAPI} {deps : StoreDeps}.

(** Store implements types.KVStore and CommitKVStore. *)
Record Store : Type := { tree : Tree }.

(** Runs a method of the tree on [st.tree]. *)
Definition on_tree {A} (c : M Tree A) : M Store A :=
  fun st => let (r, t') := c (tree st) in (r, {| tree := t' |}).

(** Modelled from the spec: types.AssertValidKey, which is not among the
    sources.  "A validation failure signals InvalidKey/InvalidValue and
    aborts the write." *)
Definition AssertValidKey {S} (key : bytes) : M S unit :=
  if validKey key then ret tt else panic InvalidKey.

(** Modelled from the spec: types.AssertValidValue, which is not among
    the sources; see [AssertValidKey]. *)
Definition AssertValidValue {S} (value : bytes) : M S unit :=
  if validValue value then ret tt else panic InvalidValue.

(** VersionExists returns whether or not a given version is stored. *)
Definition Store_VersionExists (version : Z) : M Store bool :=
  gets (fun st => tree_VersionExists (tree st) version).

(** GetImmutable returns a reference to a new store backed by an
    immutable IAVL tree at a specific version. *)
Definition Store_GetImmutable (version : Z) : M Store (Store + error) :=
  let* found := Store_VersionExists version in
  if negb found then
    ret (inl {| tree := immutableTree zeroImmutableTree |})
  else
    let* r := gets (fun st => tree_GetImmutable (tree st) version) in
    match r with
    | inr err => ret (inr err)
    | inl iTree => ret (inl {| tree := immutableTree iTree |})
    end.

(** Commit commits the current store state and returns a CommitID with
    the new version and hash. *)
Definition Store_Commit : M Store CommitID :=
  let* r := on_tree tree_SaveVersion in
  match r with
  | (_, _, Some err) => panic (PanicError err)
  | (hash, version, None) => ret {| Version := version; Hash := hash |}
  end.

(** LastCommitID implements Committer. *)
Definition Store_LastCommitID : M Store CommitID :=
  gets (fun st =>
    {| Version := tree_Version (tree st); Hash := tree_Hash (tree st) |}).

(** SetPruning panics as pruning options should be provided at
    initialization.  The argument is ignored, whatever its type. *)
Definition Store_SetPruning {PruningOptions : Type} (_ : PruningOptions)
  : M Store unit :=
  panic (PanicString "cannot set pruning options on an initialized IAVL store").

Definition Store_GetPruning {PruningOptions : Type} : M Store PruningOptions :=
  panic (PanicString "cannot get pruning options on an initialized IAVL store").

(** Implements types.KVStore. *)
Definition Store_Set (key value : bytes) : M Store unit :=
  do* AssertValidKey key in
  do* AssertValidValue value in
  do* on_tree (tree_Set key value) in
  ret tt.

Definition Store_Get (key : bytes) : M Store bytes :=
  gets (fun st => tree_Get (tree st) key).

Definition Store_Has (key : bytes) : M Store bool :=
  gets (fun st => tree_Has (tree st) key).

Definition Store_Delete (key : bytes) : M Store unit :=
  do* on_tree (tree_Remove key) in
  ret tt.

(** DeleteVersions deletes a series of versions from the MutableTree. *)
Definition Store_DeleteVersions (versions : list Z) : M Store (option error) :=
  on_tree (tree_DeleteVersions versions).

Definition Store_Iterator (start end_ : bytes) : M Store (list Pair) :=
  gets (fun st => tree_Iterator (tree st) start end_ true).

Definition Store_ReverseIterator (start end_ : bytes) : M Store (list Pair) :=
  gets (fun st => tree_Iterator (tree st) start end_ false).

(** SetInitialVersion sets the initial version of the IAVL tree. *)
Definition Store_SetInitialVersion (version : Z) : M Store unit :=
  on_tree (tree_SetInitialVersion (uint64 version)).

(** Exports the IAVL store at the given version.  The test [tree == nil]
    of the source is on the pointer that [GetImmutable] has just
    allocated; a wrapped tree is never the nil pointer here. *)
Definition Store_Export (version : Z) : M Store (Exporter + error) :=
  let* r := Store_GetImmutable version in
  match r with
  | inr err => ret (inr (ErrExportFailed version err))
  | inl istore =>
      match as_immutableTree (tree istore) with
      | None => ret (inr (ErrExportNoTree version))
      | Some itree => ret (inl (it_Export itree))
      end
  end.

(** Handle gatest the latest height, if height is 0 *)
Definition getHeight (tree : Tree) (req : RequestQuery) : Z :=
  let height := req_Height req in
  if (height =? 0)%Z then
    let latest := tree_Version tree in
    if tree_VersionExists tree (sub64 latest 1) then sub64 latest 1
    else latest
  else height.

(** Takes a tree, a key, and a flag for creating existence or absence
    proof and returns the appropriate merkle proof; panics on error
    rather than returning it.  The source receives the immutable tree
    embedded in a fresh [iavl.MutableTree]; both proof methods are those
    of the embedded tree. *)
Definition getProofFromTree {S} (itree : ImmutableTree) (key : bytes)
    (exists_ : bool) : M S ProofOps :=
  let* commitmentProof :=
    (if exists_ then
       match it_GetMembershipProof itree key with
       | inr err => panic (PanicSprintf "unexpected value for empty proof: %s" err)
       | inl p => ret p
       end
     else
       match it_GetNonMembershipProof itree key with
       | inr err => panic (PanicSprintf "unexpected error for nonexistence proof: %s" err)
       | inl p => ret p
       end) in
  ret {| Ops := [CommitmentOp_ProofOp key commitmentProof] |}.

(** types.KVStorePrefixIterator(st, prefix), drained: the pairs of the
    working store whose key starts with [prefix]. *)
Definition KVStorePrefixIterator (prefix : bytes) : M Store (list Pair) :=
  Store_Iterator prefix (PrefixEndBytes prefix).

(** [v != nil] on a byte slice. *)
Definition not_nil (v : bytes) : bool :=
  match v with Some _ => true | None => false end.

(** Query implements ABCI interface, allows queries. *)
Definition Store_Query (req : RequestQuery) : M Store ResponseQuery :=
  if (len (req_Data req) =? 0)%nat then
    ret (QueryResult (Wrap ErrTxDecode "query cannot be zero length"))
  else
    let* tree := gets tree in
    let res := with_Height zeroResponse (getHeight tree req) in
    if String.eqb (req_Path req) "/key" then
      let key := req_Data req in
      let res := with_Key res key in
      let* found := Store_VersionExists (res_Height res) in
      if negb found then
        ret (with_Log res ErrVersionDoesNotExist_Error)
      else
        let res := with_Value res (tree_GetVersioned tree key (res_Height res)) in
        if negb (req_Prove req) then ret res
        else
          match tree_GetImmutable tree (res_Height res) with
          | inr err =>
              panic (PanicSprintf
                "version exists in store but could not retrieve corresponding versioned tree in store, %s"
                err)
          | inl iTree =>
              let* ops := getProofFromTree iTree (req_Data req)
                            (not_nil (res_Value res)) in
              ret (with_ProofOps res (Some ops))
          end
    else if String.eqb (req_Path req) "/subspace" then
      let subspace := req_Data req in
      let res := with_Key res subspace in
      let* pairs := KVStorePrefixIterator subspace in
      match Pairs_Marshal pairs with
      | inr err => panic (PanicError (ErrMarshal err))
      | inl bz => ret (with_Value res bz)
      end
    else
      ret (QueryResult
             (Wrapf ErrUnknownRequest "unexpected query path: %v" (req_Path req))).

(** ** Vocabulary of the statements *)

(** The response of a "/key" query whose height is not a stored
    version. *)
Definition missingVersionResponse (key : bytes) (height : Z) : ResponseQuery :=
  {| res_Code := 0; res_Log := ErrVersionDoesNotExist_Error; res_Key := key;
     res_Value := None; res_ProofOps := None; res_Height := height;
     res_Codespace := "" |}.

(** The proof a lookup calls for: of membership when a value was found,
    of non-membership when none was. *)
Definition matchingProof (itree : ImmutableTree) (key : bytes) (found : bool)
  : CommitmentProof + error :=
  if found then it_GetMembershipProof itree key
  else it_GetNonMembershipProof itree key.

End Store.

(** ** The contract of the tree *)

(** What the store relies on from whatever implements [Tree], in three
    parts.  The first is the map contract of the tree: a key is in the tree
    exactly when a value is found for it, and the tree behind the working
    store accepts writes. *)
Class MapContract {api : TreeAPI} : Prop := {
  has_iff_get : ∀ t k, tree_Has t k = true ↔ tree_Get t k ≠ None;
  mutable_Set : ∀ t k v,
    isMutableTree t = true → v ≠ None →
    ∃ updated t', tree_Set k v t = (Ret updated, t')
                  ∧ isMutableTree t' = true ∧ tree_Get t' k = v;
  mutable_Remove : ∀ t k,
    isMutableTree t = true →
    ∃ removed t', tree_Remove k t = (Ret removed, t')
                  ∧ isMutableTree t' = true ∧ tree_Get t' k = None;
}.

(** The second is the invariant that [VersionExists] agrees with whether
    the historical reads at that version can succeed. *)
Class VersionContract {api : TreeAPI} : Prop := {
  exists_GetImmutable : ∀ t version,
    tree_VersionExists t version = true →
    ∃ itree, tree_GetImmutable t version = inl itree
             ∧ it_Version itree = version;
}.

(** The third is the wrapper [immutableTree]: it is recognised by the type
    assertion, reads the tree it wraps, and "any mutable operations
    executed will result in a panic"; the zero tree holds no key. *)
Class WrapperContract {api : TreeAPI} : Prop := {
  immutableTree_assert : ∀ itree,
    as_immutableTree (immutableTree itree) = Some itree;
  immutableTree_not_mutable : ∀ itree,
    isMutableTree (immutableTree itree) = false;
  immutableTree_Set : ∀ itree k v,
    ∃ p, tree_Set k v (immutableTree itree) = (Panicked p, immutableTree itree);
  immutableTree_Remove : ∀ itree k,
    ∃ p, tree_Remove k (immutableTree itree) = (Panicked p, immutableTree itree);
  immutableTree_Get : ∀ itree k,
    tree_Get (immutableTree itree) k = it_Get itree k;
  immutableTree_Has : ∀ itree k,
    tree_Has (immutableTree itree) k = it_Has itree k;
  immutableTree_Version : ∀ itree,
    tree_Version (immutableTree itree) = it_Version itree;
  zero_Get : ∀ k, it_Get zeroImmutableTree k = None;
  zero_Has : ∀ k, it_Has zeroImmutableTree k = false;
}.

(** What the store relies on from the other packages: nil is neither a
    valid key nor a valid value, and an error result is a hard failure. *)
Class DepsContract {api : TreeAPI} {deps : StoreDeps} : Prop := {
  nil_key_invalid : validKey None = false;
  nil_value_invalid : validValue None = false;
  QueryResult_failure : ∀ e, res_Code (QueryResult e) ≠ 0%N;
}.

(** ** A reference tree *)

(** Modelled from the spec: the Tree capability ("an ordered, versioned,
    authenticated mapping"), whose package file tree.go and whose library
    are not among the sources.  The working tree is a finite map, every
    saved version is a frozen copy of it, and [immutableTree] wraps one
    frozen copy.  It is used to run the store on concrete inputs. *)
Module Ref.

Record MutableTree : Type := {
  working : gmap string string;
  version : Z;
  initialVersion : Z;
  versions : gmap Z (gmap string string);
}.

Record Frozen : Type := {
  it_version : Z;
  it_items : gmap string string;
}.

(** The two implementations of the interface. *)
Inductive T : Type :=
  | Mutable (m : MutableTree)
  | Immutable (i : Frozen).

Inductive Ics23Proof : Type :=
  | ExistenceProof (key value : string)
  | NonExistenceProof (key : string).

(** A tree with no key and no saved version. *)
Definition empty : MutableTree :=
  {| working := ∅; version := 0; initialVersion := 0; versions := ∅ |}.

(** The tree compares keys as byte strings; nil is the empty key. *)
Definition keyOf (k : bytes) : string := default "" k.

Definition contents (t : T) : gmap string string :=
  match t with
  | Mutable m => working m
  | Immutable i => it_items i
  end.

Definition with_working (m : MutableTree) (w : gmap string string) : MutableTree :=
  {| working := w; version := version m;
     initialVersion := initialVersion m; versions := versions m |}.

Definition Has (t : T) (k : bytes) : bool :=
  bool_decide (is_Some (contents t !! keyOf k)).

Definition Get (t : T) (k : bytes) : bytes := contents t !! keyOf k.

Definition Set_ (k v : bytes) : M T bool := fun t =>
  match t, v with
  | Mutable m, Some s =>
      (Ret (Has t k), Mutable (with_working m (<[keyOf k := s]> (working m))))
  | _, _ => (Panicked (PanicTree "Set"), t)
  end.

Definition Remove (k : bytes) : M T (bytes * bool) := fun t =>
  match t with
  | Mutable m =>
      (Ret (Get t k, Has t k), Mutable (with_working m (delete (keyOf k) (working m))))
  | Immutable _ => (Panicked (PanicTree "Remove"), t)
  end.

(** Pairs in ascending order of key. *)
Definition sorted_pairs (c : gmap string string) : list (string * string) :=
  merge_sort (λ p q, String.leb p.1 q.1) (map_to_list c).

(** A stand-in for the root digest: the sorted pairs, written out. *)
Definition digest (c : gmap string string) : bytes :=
  Some (String.concat ";" ((λ p, p.1 +:+ "=" +:+ p.2) <$> sorted_pairs c)).

Definition nextVersion (m : MutableTree) : Z :=
  if (version m =? 0)%Z && (1 <? initialVersion m)%Z then initialVersion m
  else version m + 1.

Definition SaveVersion : M T (bytes * Z * option error) := fun t =>
  match t with
  | Mutable m =>
      let v := nextVersion m in
      (Ret (digest (working m), v, None),
       Mutable {| working := working m; version := v;
                  initialVersion := initialVersion m;
                  versions := <[v := working m]> (versions m) |})
  | Immutable _ => (Panicked (PanicTree "SaveVersion"), t)
  end.

Definition deletable (m : MutableTree) (v : Z) : bool :=
  bool_decide (is_Some (versions m !! v)) && negb (v =? version m)%Z.

Definition DeleteVersions (vs : list Z) : M T (option error) := fun t =>
  match t with
  | Mutable m =>
      if forallb (deletable m) vs then
        (Ret None,
         Mutable {| working := working m; version := version m;
                    initialVersion := initialVersion m;
                    versions := foldr delete (versions m) vs |})
      else (Ret (Some (ErrTree "cannot delete version")), t)
  | Immutable _ => (Panicked (PanicTree "DeleteVersions"), t)
  end.

Definition SetInitialVersion (v : Z) : M T unit := fun t =>
  match t with
  | Mutable m =>
      (Ret tt, Mutable {| working := working m; version := version m;
                          initialVersion := v; versions := versions m |})
  | Immutable _ => (Panicked (PanicTree "SetInitialVersion"), t)
  end.

Definition Version (t : T) : Z :=
  match t with
  | Mutable m => version m
  | Immutable i => it_version i
  end.

Definition Hash (t : T) : bytes :=
  match t with
  | Mutable m => versions m !! version m ≫= digest
  | Immutable i => digest (it_items i)
  end.

Definition VersionExists (t : T) (v : Z) : bool :=
  match t with
  | Mutable m => bool_decide (is_Some (versions m !! v))
  | Immutable i => (it_version i =? v)%Z
  end.

Definition GetVersioned (t : T) (k : bytes) (v : Z) : bytes :=
  match t with
  | Mutable m => versions m !! v ≫= (λ c, c !! keyOf k)
  | Immutable i => if (it_version i =? v)%Z then it_items i !! keyOf k else None
  end.

Definition GetImmutable (t : T) (v : Z) : Frozen + error :=
  match t with
  | Mutable m =>
      match versions m !! v with
      | Some c => inl {| it_version := v; it_items := c |}
      | None => inr ErrVersionDoesNotExist
      end
  | Immutable i =>
      if (it_version i =? v)%Z then inl i
      else inr (ErrTree "version mismatch on immutable IAVL tree")
  end.

(** The keys [k] with [start <= k < end_]; a nil bound is no bound. *)
Definition in_range (start end_ : bytes) (k : string) : bool :=
  match start with None => true | Some s => String.leb s k end
  && match end_ with None => true | Some e => String.ltb k e end.

Definition Iterator (t : T) (start end_ : bytes) (ascending : bool) : list Pair :=
  let ps := (λ p, {| pair_Key := Some p.1; pair_Value := Some p.2 |})
              <$> filter (λ p, in_range start end_ p.1) (sorted_pairs (contents t)) in
  if ascending then ps else reverse ps.

Definition zero : Frozen := {| it_version := 0; it_items := ∅ |}.

Definition GetMembershipProof (i : Frozen) (k : bytes)
  : Ics23Proof + error :=
  match it_items i !! keyOf k with
  | Some v => inl (ExistenceProof (keyOf k) v)
  | None => inr (ErrTree "key not found")
  end.

Definition GetNonMembershipProof (i : Frozen) (k : bytes)
  : Ics23Proof + error :=
  match it_items i !! keyOf k with
  | Some _ => inr (ErrTree "cannot create non-membership proof with key in tree")
  | None => inl (NonExistenceProof (keyOf k))
  end.

#[export] Instance api : TreeAPI := {|
  Tree := T;
  ImmutableTree := Frozen;
  Exporter := Frozen;
  CommitmentProof := Ics23Proof;
  tree_Has := Has;
  tree_Get := Get;
  tree_Set := Set_;
  tree_Remove := Remove;
  tree_SaveVersion := SaveVersion;
  tree_DeleteVersions := DeleteVersions;
  tree_SetInitialVersion := SetInitialVersion;
  tree_Version := Version;
  tree_Hash := Hash;
  tree_VersionExists := VersionExists;
  tree_GetVersioned := GetVersioned;
  tree_GetImmutable := GetImmutable;
  tree_Iterator := Iterator;
  immutableTree := Immutable;
  as_immutableTree := λ t, match t with Immutable i => Some i | Mutable _ => None end;
  isMutableTree := λ t, match t with Mutable _ => true | Immutable _ => false end;
  zeroImmutableTree := zero;
  it_Has := λ i, Has (Immutable i);
  it_Get := λ i, Get (Immutable i);
  it_Version := it_version;
  it_Export := λ i, i;
  it_GetMembershipProof := GetMembershipProof;
  it_GetNonMembershipProof := GetNonMembershipProof;
|}.

(** Modelled from the spec: the key validity assertion ("non-nil, length
    within an implementation-defined bound"; a key is a "non-empty byte
    sequence"). *)
Definition MaxKeyLength : N := 131072.

Definition validKey (k : bytes) : bool :=
  negb (len k =? 0)%nat && (N.of_nat (len k) <=? MaxKeyLength)%N.

(** Modelled from the spec: the value validity assertion (a nil value is
    "explicitly rejected"). *)
Definition validValue (v : bytes) : bool := not_nil v.

(** The registered code and message of an error; wrapping keeps the
    code of the cause. *)
Fixpoint abciCode (e : error) : N :=
  match e with
  | ErrTxDecode => 2
  | ErrUnknownRequest => 6
  | Wrap e _ | Wrapf e _ _ => abciCode e
  | _ => 1
  end.

Fixpoint errorString (e : error) : string :=
  match e with
  | ErrVersionDoesNotExist => ErrVersionDoesNotExist_Error
  | ErrTxDecode => "tx parse error"
  | ErrUnknownRequest => "unknown request"
  | Wrap e d => d +:+ ": " +:+ errorString e
  | Wrapf e f a =>
      String.substring 0 (String.length f - 2) f +:+ a +:+ ": " +:+ errorString e
  | ErrExportFailed v c =>
      "iavl export failed for version " +:+ pretty v +:+ ": " +:+ errorString c
  | ErrExportNoTree v =>
      "iavl export failed: unable to fetch tree for version " +:+ pretty v
  | ErrNoMutableTree => "iavl import failed: unable to find mutable tree"
  | ErrMarshal c => "failed to marshal KV pairs: " +:+ errorString c
  | ErrTree msg => msg
  end.

(** Modelled from the spec: an error result carries the error in the
    response ("returned to caller") and is a hard failure; height, key
    and value are left at their zero values. *)
Definition QueryResult (e : error) : ResponseQuery :=
  {| res_Code := abciCode e; res_Log := errorString e; res_Key := None;
     res_Value := None; res_ProofOps := None; res_Height := 0;
     res_Codespace := "sdk" |}.

(** The reversed bytes of the successor of a prefix given by its
    reversed bytes: trailing 255 bytes are dropped, the last remaining
    byte is incremented. *)
Fixpoint successor_rev (l : list Ascii.ascii) : option (list Ascii.ascii) :=
  match l with
  | [] => None
  | c :: r =>
      if (Ascii.N_of_ascii c =? 255)%N then successor_rev r
      else Some (Ascii.ascii_of_N (Ascii.N_of_ascii c + 1) :: r)
  end.

(** Modelled from the spec: the end of the range
    "[prefix, successor(prefix))"; nil when there is no successor. *)
Definition PrefixEndBytes (prefix : bytes) : bytes :=
  s ← prefix;
  l ← successor_rev (reverse (String.list_ascii_of_string s));
  Some (String.string_of_list_ascii (reverse l)).

(** A stand-in for the wire encoding of a list of pairs. *)
Definition Pairs_Marshal (ps : list Pair) : bytes + error :=
  inl (Some (String.concat ";"
    ((λ p, keyOf (pair_Key p) +:+ "=" +:+ keyOf (pair_Value p)) <$> ps))).

Definition Proof_Marshal (p : Ics23Proof) : bytes :=
  match p with
  | ExistenceProof k v => Some ("exist:" +:+ k +:+ "=" +:+ v)
  | NonExistenceProof k => Some ("nonexist:" +:+ k)
  end.

(** Modelled from the spec: the "generic commitment-operation envelope
    carrying the key and the serialized proof bytes". *)
Definition CommitmentOp_ProofOp (key : bytes) (p : Ics23Proof) : ProofOp :=
  {| op_Type := "ics23:iavl"; op_Key := key; op_Data := Proof_Marshal p |}.

#[export] Instance deps : StoreDeps :=
  Build_StoreDeps api validKey validValue QueryResult PrefixEndBytes
    Pairs_Marshal CommitmentOp_ProofOp.

(** A store over the reference tree. *)
Definition store (m : MutableTree) : Store := {| tree := Mutable m |}.

(** The store a computation leaves behind. *)
Definition after {A} (c : M Store A) (st : Store) : Store := (c st).2.

(** The reference tree on a storage that can no longer load any saved
    root: versions are still listed, their snapshots cannot be built. *)
Definition unreadable : TreeAPI := {|
  Tree := T;
  ImmutableTree := Frozen;
  Exporter := Frozen;
  CommitmentProof := Ics23Proof;
  tree_Has := Has;
  tree_Get := Get;
  tree_Set := Set_;
  tree_Remove := Remove;
  tree_SaveVersion := SaveVersion;
  tree_DeleteVersions := DeleteVersions;
  tree_SetInitialVersion := SetInitialVersion;
  tree_Version := Version;
  tree_Hash := Hash;
  tree_VersionExists := VersionExists;
  tree_GetVersioned := GetVersioned;
  tree_GetImmutable := λ _ _, inr (ErrTree "cannot load root");
  tree_Iterator := Iterator;
  immutableTree := Immutable;
  as_immutableTree := λ t, match t with Immutable i => Some i | Mutable _ => None end;
  isMutableTree := λ t, match t with Mutable _ => true | Immutable _ => false end;
  zeroImmutableTree := zero;
  it_Has := λ i, Has (Immutable i);
  it_Get := λ i, Get (Immutable i);
  it_Version := it_version;
  it_Export := λ i, i;
  it_GetMembershipProof := GetMembershipProof;
  it_GetNonMembershipProof := GetNonMembershipProof;
|}.

End Ref.

(** ** Stores to run on *)

(** The scenario of the spec: "start empty store at version 0; Set a 1,
    Set b 2, Commit; Delete a, Commit". *)
Module Scenario.
Import Ref.

(** No key, no commit. *)
Definition fresh : Store := store empty.

(** One write, not committed. *)
Definition uncommitted : Store :=
  after (Store_Set (Some "a") (Some "1")) fresh.

(** Version 1 holds a and b. *)
Definition committed : Store :=
  after Store_Commit (after (Store_Set (Some "b") (Some "2")) uncommitted).

(** Version 2 holds b only. *)
Definition committed_twice : Store :=
  after Store_Commit (after (Store_Delete (Some "a")) committed).

(** [committed] on the storage that cannot load roots. *)
Definition committed_unreadable : Store (api := unreadable) :=
  @Build_Store unreadable (tree committed).

Definition keyQuery (key : bytes) (height : Z) (prove : bool) : RequestQuery :=
  {| req_Data := key; req_Path := "/key"; req_Height := height;
     req_Prove := prove |}.

End Scenario.


(** * More of store.go *)

(** ** Import *)

(** What [Import] uses of the tree library: the importer that
    [iavl.MutableTree.Import] builds, or its error. *)
Class ImportAPI {api : TreeAPI} : Type := {
  Importer : Type;
  mt_Import : Tree → Z → Importer + error;
      (* tree.Import(version), for a tree that is an *iavl.MutableTree *)
}.

Section StoreImport.
Context {api : TreeAPI} {imp : ImportAPI}.

(** Import imports an IAVL tree at the given version, returning an
    iavl.Importer for importing. *)
Definition Store_Import (version : Z) : M Store (Importer + error) :=
  let* tree := gets tree in
  if negb (isMutableTree tree) then ret (inr ErrNoMutableTree)
  else ret (mt_Import tree version).

End StoreImport.

(** ** Vocabulary of the further statements *)

(** The request [req] sent again with another height. *)
Definition with_req_Height (req : RequestQuery) (height : Z) : RequestQuery :=
  {| req_Data := req_Data req; req_Path := req_Path req;
     req_Height := height; req_Prove := req_Prove req |}.

(** The request [req] sent again with another proof flag. *)
Definition with_req_Prove (req : RequestQuery) (prove : bool) : RequestQuery :=
  {| req_Data := req_Data req; req_Path := req_Path req;
     req_Height := req_Height req; req_Prove := prove |}.

(** The response of a "/key" query that is answered from a stored
    version, before any proof is attached. *)
Definition storedVersionResponse (key value : bytes) (height : Z) : ResponseQuery :=
  {| res_Code := 0; res_Log := ""; res_Key := key; res_Value := value;
     res_ProofOps := None; res_Height := height; res_Codespace := "" |}.

(** Two trees with the same committed history: the same current version
    and, for every version, the same answers of the historical reads. *)
Definition same_history {api : TreeAPI} (t1 t2 : Tree) : Prop :=
  tree_Version t1 = tree_Version t2
  ∧ (∀ version, tree_VersionExists t1 version = tree_VersionExists t2 version)
  ∧ (∀ key version,
       tree_GetVersioned t1 key version = tree_GetVersioned t2 key version)
  ∧ (∀ version, tree_GetImmutable t1 version = tree_GetImmutable t2 version).

(** The contract of [SaveVersion]: when it returns a hash and a version
    and no error, that pair is what the tree then reports as its own, the
    version is stored and reads what the working tree held, and every
    other version is as it was. *)
Class SnapshotContract {api : TreeAPI} : Prop := {
  saved_is_current : ∀ t t' hash version,
    tree_SaveVersion t = (Ret (hash, version, None), t') →
    tree_Version t' = version ∧ tree_Hash t' = hash;
  saved_exists : ∀ t t' hash version,
    tree_SaveVersion t = (Ret (hash, version, None), t') →
    tree_VersionExists t' version = true;
  saved_reads_working : ∀ t t' hash version,
    tree_SaveVersion t = (Ret (hash, version, None), t') →
    ∀ key, tree_GetVersioned t' key version = tree_Get t key;
  saved_keeps_others : ∀ t t' hash version,
    tree_SaveVersion t = (Ret (hash, version, None), t') →
    ∀ other, other ≠ version →
      tree_VersionExists t' other = tree_VersionExists t other
      ∧ ∀ key, tree_GetVersioned t' key other = tree_GetVersioned t key other;
}.

(** The contract between a lookup at a stored version and the proofs of
    the snapshot of that version: the snapshot reads what the lookup
    reads, a membership proof can be built for a key it holds and a
    non-membership proof for a key it does not hold. *)
Class ProofContract {api : TreeAPI} : Prop := {
  snapshot_reads : ∀ t version itree key,
    tree_GetImmutable t version = inl itree →
    tree_GetVersioned t key version = it_Get itree key;
  membership_of_present : ∀ itree key,
    it_Get itree key ≠ None →
    ∃ p, it_GetMembershipProof itree key = inl p;
  non_membership_of_absent : ∀ itree key,
    it_Get itree key = None →
    ∃ p, it_GetNonMembershipProof itree key = inl p;
}.

(** ** The reference tree, continued *)

Module RefMore.
Import Ref.

(** Modelled from the spec: "Import(version) ... consumes a stream of
    node records ... and reconstructs a tree bound to the given version";
    the importer is given by the tree it fills and the version it will
    save.  The library refuses a negative version and a tree that is not
    empty. *)
Definition Import (t : T) (version : Z) : (MutableTree * Z) + error :=
  match t with
  | Mutable m =>
      if (version <? 0)%Z then inr (ErrTree "imported version cannot be negative")
      else if bool_decide (working m = ∅ ∧ versions m = ∅) then inl (m, version)
      else inr (ErrTree "tree must be empty")
  | Immutable _ => inr ErrNoMutableTree
  end.

#[export] Instance importer : ImportAPI (api := api) :=
  {| Importer := MutableTree * Z; mt_Import := Import |}.

(** The dependencies of the store on the storage that cannot load
    roots. *)
Definition unreadable_deps : StoreDeps (api := unreadable) :=
  Build_StoreDeps unreadable validKey validValue QueryResult PrefixEndBytes
    Pairs_Marshal CommitmentOp_ProofOp.

(** The working version moved on after the second commit. *)
Definition committed_then_written : Store :=
  after (Store_Set (Some "c") (Some "3"))
        (after (Store_Delete (Some "b")) Scenario.committed_twice).

(** A store over a frozen copy, as GetImmutable builds it. *)
Definition view (i : Frozen) : Store := {| tree := Immutable i |}.

Definition subspaceQuery (prefix : bytes) (height : Z) (prove : bool)
  : RequestQuery :=
  {| req_Data := prefix; req_Path := "/subspace"; req_Height := height;
     req_Prove := prove |}.

End RefMore.

(** * The server utilities (server/util.go) *)

(** What util.go uses of [net.IP], for an address that is not nil. *)
Class NetIP : Type := {
  IP : Type;
  IsLoopback : IP → bool;
  To4 : IP → option IP;
      (* ip.To4(), None when it is nil: not an IPv4 address *)
  IP_String : IP → string;
}.

Module Server.

(** The bits of [net.Flags] that util.go tests. *)
Definition FlagUp : Z := 1.
Definition FlagLoopback : Z := 4.

(** The errors of ExternalIP: its own, and those of the system calls. *)
Inductive net_error : Type :=
  | ErrNotConnected
      (* errors.New("are you connected to the network?") *)
  | ErrSyscall (msg : string).

Section Network.
Context {netip : NetIP}.

(** net.Addr with the two implementations util.go looks into; the [IP]
    field of either may be nil. *)
Inductive Addr : Type :=
  | IPNet (ip : option IP) (mask : string)
  | IPAddr (ip : option IP) (zone : string)
  | OtherAddr (network : string).

(** net.Interface: its name and flags, and what its method [Addrs]
    returns. *)
Record Interface : Type := {
  Name : string;
  Flags : Z;
  Addrs : list Addr + net_error;
}.

Definition skipInterface (iface : Interface) : bool :=
  if (Z.land (Flags iface) FlagUp =? 0)%Z then true (* interface down *)
  else if negb (Z.land (Flags iface) FlagLoopback =? 0)%Z then true (* loopback interface *)
  else false.

Definition addrToIP (addr : Addr) : option IP :=
  match addr with
  | IPNet ip _ => ip
  | IPAddr ip _ => ip
  | OtherAddr _ => None
  end.

(** The inner loop of ExternalIP: the first address of the interface that
    is an IPv4 address and not a loopback one, as a string. *)
Fixpoint firstExternal (addrs : list Addr) : option string :=
  match addrs with
  | [] => None
  | addr :: rest =>
      match addrToIP addr with
      | None => firstExternal rest
      | Some ip =>
          if IsLoopback ip then firstExternal rest
          else
            match To4 ip with
            | None => firstExternal rest (* not an ipv4 address *)
            | Some ip4 => Some (IP_String ip4)
            end
      end
  end.

(** The outer loop of ExternalIP. *)
Fixpoint scanInterfaces (ifaces : list Interface) : string + net_error :=
  match ifaces with
  | [] => inr ErrNotConnected
  | iface :: rest =>
      if skipInterface iface then scanInterfaces rest
      else
        match Addrs iface with
        | inr err => inr err
        | inl addrs =>
            match firstExternal addrs with
            | Some s => inl s
            | None => scanInterfaces rest
            end
        end
  end.

(** ExternalIP, given what [net.Interfaces()] returns. *)
Definition ExternalIP (net_Interfaces : list Interface + net_error)
  : string + net_error :=
  match net_Interfaces with
  | inr err => inr err
  | inl ifaces => scanInterfaces ifaces
  end.

(** An address ExternalIP can return: it holds an IP that is not a
    loopback address and has the IPv4 form [ip4]. *)
Definition external (addr : Addr) (ip4 : IP) : Prop :=
  ∃ ip, addrToIP addr = Some ip ∧ IsLoopback ip = false ∧ To4 ip = Some ip4.

(** An interface that cannot decide the result: it is skipped, or its
    addresses are listed and none of them is returned. *)
Definition silent (iface : Interface) : Prop :=
  skipInterface iface = true
  ∨ ∃ addrs, Addrs iface = inl addrs ∧ firstExternal addrs = None.

End Network.

(** ** The server context of a command *)

Section ServerContext.
Context {Viper Config Logger : Type}.

(** server context *)
Record Context : Type := {
  ctx_Viper : Viper;
  ctx_Config : Config;
  ctx_Logger : Logger;
}.

(** The memory that holds the server contexts: a [*Context] is an address
    in it.  An address that holds nothing stands for the nil pointer. *)
Definition Memory : Type := gmap positive Context.

(** A command, as far as util.go looks at it: [None] when [cmd.Context()]
    is nil, and otherwise what [Value(ServerContextKey)] returns, [None]
    being nil and [Some p] a [*Context]. *)
Record Command : Type := { cmd_Context : option (option positive) }.

Definition nilDereference : panic_value :=
  PanicString "invalid memory address or nil pointer dereference".

(** [cmd.Context().Value(ServerContextKey)] *)
Definition contextValue (cmd : Command) : M Memory (option positive) :=
  match cmd_Context cmd with
  | None => panic nilDereference
  | Some v => ret v
  end.

(** NewContext allocates a context. *)
Definition NewContext (v : Viper) (config : Config) (logger : Logger)
  : M Memory positive :=
  fun mem =>
    let p := fresh (dom mem) in
    (Ret p, <[p := {| ctx_Viper := v; ctx_Config := config; ctx_Logger := logger |}]> mem).

(** NewDefaultContext, given the viper, the configuration and the logger
    that its three constructor calls return. *)
Definition NewDefaultContext (defaults : Context) : M Memory positive :=
  NewContext (ctx_Viper defaults) (ctx_Config defaults) (ctx_Logger defaults).

(** GetServerContextFromCmd returns a Context from a command or an empty
    Context if it has not been set. *)
Definition GetServerContextFromCmd (defaults : Context) (cmd : Command)
  : M Memory positive :=
  let* v := contextValue cmd in
  match v with
  | Some serverCtxPtr => ret serverCtxPtr
  | None => NewDefaultContext defaults
  end.

Inductive context_error : Type :=
  | ErrServerContextNotSet
      (* errors.New("server context not set") *).

(** SetCmdServerContext sets a command's Context value to the provided
    argument.  The assignment [*serverCtxPtr = *serverCtx] reads through
    one pointer and writes through the other; it panics when either is
    nil. *)
Definition SetCmdServerContext (cmd : Command) (serverCtx : positive)
  : M Memory (option context_error) :=
  let* v := contextValue cmd in
  match v with
  | None => ret (Some ErrServerContextNotSet)
  | Some serverCtxPtr =>
      fun mem =>
        match mem !! serverCtx, mem !! serverCtxPtr with
        | Some c, Some _ => (Ret None, <[serverCtxPtr := c]> mem)
        | _, _ => (Panicked nilDereference, mem)
        end
  end.

End ServerContext.

(** GetAppDBBackend gets the backend type to use for the application
    DBs.  [opts] is the method Get of types.AppOptions, [ToString] is
    cast.ToString and [GoLevelDBBackend] the constant of the database
    package. *)
Definition GetAppDBBackend {V : Type} (ToString : V → string)
    (GoLevelDBBackend : string) (opts : string → V) : string :=
  let rv := ToString (opts "app-db-backend") in
  let rv := if (String.length rv =? 0)%nat then ToString (opts "db-backend") else rv in
  if negb (String.length rv =? 0)%nat then rv
  else GoLevelDBBackend.

(** A network to run on: addresses are four or sixteen bytes. *)
#[export] Instance bytesIP : NetIP := {|
  IP := list Z;
  IsLoopback := λ ip,
    match ip with
    | [a; _; _; _] => (a =? 127)%Z
    | _ => bool_decide (ip = [0;0;0;0; 0;0;0;0; 0;0;0;0; 0;0;0;1])
    end;
  To4 := λ ip, match ip with [_; _; _; _] => Some ip | _ => None end;
  IP_String := λ ip, String.concat "." (pretty <$> ip);
|}.

Definition eth0 : Interface :=
  {| Name := "eth0"; Flags := 1 + 2 + 16;
     Addrs := inl [IPNet (Some [0;0;0;0; 0;0;0;0; 0;0;0;0; 0;0;0;9]) "";
                   IPNet (Some [10; 0; 0; 7]) ""] |}.

Definition lo : Interface :=
  {| Name := "lo"; Flags := 1 + 4;
     Addrs := inl [IPNet (Some [127; 0; 0; 1]) ""] |}.

Definition wlan0 : Interface :=
  {| Name := "wlan0"; Flags := 1 + 2; Addrs := inr (ErrSyscall "permission denied") |}.

Definition down0 : Interface :=
  {| Name := "down0"; Flags := 2; Addrs := inr (ErrSyscall "no such device") |}.

(** A memory with two server contexts, and a command that holds the
    first. *)
Definition defaultContext : Context (Viper := string) (Config := string)
    (Logger := string) :=
  {| ctx_Viper := "viper"; ctx_Config := "default"; ctx_Logger := "stdout" |}.

Definition customContext : Context (Viper := string) (Config := string)
    (Logger := string) :=
  {| ctx_Viper := "viper"; ctx_Config := "custom"; ctx_Logger := "tracing" |}.

Definition mem0 : gmap positive Context :=
  <[2%positive := customContext]> (<[1%positive := defaultContext]> ∅).

Definition cmd0 : Command := {| cmd_Context := Some (Some 1%positive) |}.

End Server.

(** * Properties of the store *)

(** ** Running the monad *)

Lemma bind_Ret {S A B} (c : M S A) (k : A → M S B) (s s' : S) (a : A) :
  c s = (Ret a, s') → bind c k s = k a s'.
Proof. intros E. unfold bind. now rewrite E. Qed.

Lemma bind_Panicked {S A B} (c : M S A) (k : A → M S B) (s s' : S) p :
  c s = (Panicked p, s') → bind c k s = (Panicked p, s').
Proof. intros E. unfold bind. now rewrite E. Qed.

Lemma read_only_ret {S A} (a : A) : read_only (ret (S := S) a).
Proof. now intros s. Qed.

Lemma read_only_panic {S A} p : read_only (panic (S := S) (A := A) p).
Proof. now intros s. Qed.

Lemma read_only_gets {S A} (f : S → A) : read_only (gets f).
Proof. now intros s. Qed.

Lemma read_only_bind {S A B} (c : M S A) (k : A → M S B) :
  read_only c → (∀ a, read_only (k a)) → read_only (bind c k).
Proof.
  intros Hc Hk s. unfold bind.
  specialize (Hc s). destruct (c s) as [[a|p] s']; simpl in *; subst.
  - apply Hk.
  - reflexivity.
Qed.

Create HintDb frame discriminated.
#[export] Hint Resolve read_only_ret read_only_panic read_only_gets : frame.

(** ** Arithmetic on int64 *)

Lemma wrap64_in_range (z : Z) : MinInt64 ≤ z ≤ MaxInt64 → wrap64 z = z.
Proof.
  unfold MinInt64, MaxInt64, wrap64. intros Hz.
  rewrite Z.mod_small; lia.
Qed.

Lemma sub64_one (latest : Z) :
  MinInt64 < latest ≤ MaxInt64 → sub64 latest 1 = latest - 1.
Proof.
  intros Hl. unfold sub64. apply wrap64_in_range.
  unfold MinInt64, MaxInt64 in *. lia.
Qed.

Section StoreProperties.
Context {api : TreeAPI} {deps : StoreDeps}.

Lemma getProofFromTree_read_only {S} itree key found :
  read_only (getProofFromTree (S := S) itree key found).
Proof.
  unfold getProofFromTree. apply read_only_bind.
  - destruct found.
    + destruct (it_GetMembershipProof itree key); auto with frame.
    + destruct (it_GetNonMembershipProof itree key); auto with frame.
  - auto with frame.
Qed.

Lemma Store_VersionExists_read_only version :
  read_only (Store_VersionExists version).
Proof. unfold Store_VersionExists. auto with frame. Qed.

Lemma Store_Query_read_only req : read_only (Store_Query req).
Proof.
  unfold Store_Query.
  destruct (len (req_Data req) =? 0)%nat; [auto with frame|].
  apply read_only_bind; [auto with frame|]. intros t.
  destruct (String.eqb (req_Path req) "/key").
  - apply read_only_bind; [apply Store_VersionExists_read_only|].
    intros found. destruct (negb found); [auto with frame|].
    destruct (negb (req_Prove req)); [auto with frame|].
    destruct (tree_GetImmutable _ _); [|auto with frame].
    apply read_only_bind; [apply getProofFromTree_read_only|].
    auto with frame.
  - destruct (String.eqb (req_Path req) "/subspace"); [|auto with frame].
    apply read_only_bind.
    + unfold KVStorePrefixIterator, Store_Iterator. auto with frame.
    + intros pairs. destruct (Pairs_Marshal pairs); auto with frame.
Qed.

(** C1. The height a query is answered at: a request with height 0 is
    answered at [latest - 1] when the tree has that version and at
    [latest], the current version of the tree, when it has not; a
    request with any other height is answered at that height.  The
    subtraction is the one of int64, which is the exact difference
    unless [latest] is the least int64. *)
Theorem C1_getHeight_policy (t : Tree) (req : RequestQuery) :
  let latest := tree_Version t in
  (req_Height req = 0 → tree_VersionExists t (sub64 latest 1) = true →
     getHeight t req = sub64 latest 1)
  ∧ (req_Height req = 0 → tree_VersionExists t (sub64 latest 1) = false →
     getHeight t req = latest)
  ∧ (req_Height req ≠ 0 → getHeight t req = req_Height req)
  ∧ (MinInt64 < latest ≤ MaxInt64 → sub64 latest 1 = latest - 1).
Proof.
  intros latest. unfold getHeight. fold latest.
  repeat split.
  - intros -> ->. reflexivity.
  - intros -> ->. reflexivity.
  - intros Hne. destruct (Z.eqb_spec (req_Height req) 0); [contradiction|reflexivity].
  - apply sub64_one.
Qed.

(** C9. SetPruning and GetPruning panic on every store and for every
    argument, and leave the store as it was. *)
Theorem C9_pruning_accessors_panic
    (PruningOptions : Type) (opts : PruningOptions) (st : Store) :
  Store_SetPruning opts st
    = (Panicked (PanicString "cannot set pruning options on an initialized IAVL store"), st)
  ∧ Store_GetPruning (PruningOptions := PruningOptions) st
    = (Panicked (PanicString "cannot get pruning options on an initialized IAVL store"), st).
Proof. split; reflexivity. Qed.

(** C10. Query is read-only: on every request, whatever its path and
    whether it returns or panics, the store it leaves is the store it
    was given, so the working tree holds the same value for every key
    and LastCommitID is the same. *)
Theorem C10_Query_read_only (req : RequestQuery) (st : Store) :
  let st' := (Store_Query req st).2 in
  st' = st
  ∧ tree st' = tree st
  ∧ (∀ key, (Store_Get key st').1 = (Store_Get key st).1)
  ∧ (∀ key, (Store_Has key st').1 = (Store_Has key st).1)
  ∧ (Store_LastCommitID st').1 = (Store_LastCommitID st).1.
Proof.
  intros st'. assert (E : st' = st) by apply Store_Query_read_only.
  rewrite E. repeat split.
Qed.

Lemma Store_Query_key_missing (req : RequestQuery) (st : Store) :
  len (req_Data req) ≠ 0%nat →
  req_Path req = "/key" →
  tree_VersionExists (tree st) (getHeight (tree st) req) = false →
  Store_Query req st
    = (Ret (missingVersionResponse (req_Data req) (getHeight (tree st) req)), st).
Proof.
  intros Hlen Hpath Hmiss. unfold Store_Query.
  destruct (Nat.eqb_spec (len (req_Data req)) 0); [contradiction|].
  rewrite Hpath. simpl.
  unfold bind, gets, Store_VersionExists. simpl. rewrite Hmiss. reflexivity.
Qed.

(** C4, as amended.  A "/key" query with a non-empty payload whose
    resolved height is not a stored version is answered, not refused:
    the response has code 0, the log "version does not exist", no value
    and no proof, the payload as key and the resolved height as
    height. *)
Theorem C4_missing_version_is_soft (req : RequestQuery) (st : Store) :
  len (req_Data req) ≠ 0%nat →
  req_Path req = "/key" →
  tree_VersionExists (tree st) (getHeight (tree st) req) = false →
  ∃ res, Store_Query req st = (Ret res, st)
         ∧ res_Code res = 0%N
         ∧ res_Log res = "version does not exist"
         ∧ res_Value res = None
         ∧ res_Key res = req_Data req
         ∧ res_Height res = getHeight (tree st) req.
Proof.
  intros Hlen Hpath Hmiss.
  eexists. split; [apply Store_Query_key_missing; assumption|].
  repeat split.
Qed.

(** C8, as amended.  On a store with no stored version, a "/key" query
    with height 0 and a non-empty payload resolves to the current
    version of the tree, which is not a stored version: the response
    carries the log "version does not exist" and no value, whatever the
    working version holds for the key. *)
Theorem C8_query_before_first_commit (req : RequestQuery) (st : Store) :
  (∀ version, tree_VersionExists (tree st) version = false) →
  len (req_Data req) ≠ 0%nat →
  req_Path req = "/key" →
  req_Height req = 0 →
  ∃ res, Store_Query req st = (Ret res, st)
         ∧ res_Height res = tree_Version (tree st)
         ∧ res_Log res = "version does not exist"
         ∧ res_Value res = None
         ∧ res_Code res = 0%N.
Proof.
  intros Hnone Hlen Hpath Hzero.
  assert (Hh : getHeight (tree st) req = tree_Version (tree st)).
  { unfold getHeight. rewrite Hzero, Hnone. reflexivity. }
  eexists. split.
  - apply Store_Query_key_missing; [assumption..|]. apply Hnone.
  - rewrite Hh. repeat split.
Qed.

Lemma getProofFromTree_matching {S} itree key found (s : S) :
  match matchingProof itree key found with
  | inl p =>
      getProofFromTree itree key found s
        = (Ret {| Ops := [CommitmentOp_ProofOp key p] |}, s)
  | inr err =>
      ∃ format, getProofFromTree itree key found s
                  = (Panicked (PanicSprintf format err), s)
  end.
Proof.
  unfold matchingProof, getProofFromTree, bind.
  destruct found.
  - destruct (it_GetMembershipProof itree key); [reflexivity|].
    eexists. reflexivity.
  - destruct (it_GetNonMembershipProof itree key); [reflexivity|].
    eexists. reflexivity.
Qed.

(** C6. After a lookup, the proof that is built is the one matching its
    outcome: a membership proof when a value was found and a
    non-membership proof when none was.  When the tree cannot build that
    proof the construction panics; there is no error result.  The same
    holds inside a "/key" query that asks for a proof: the flag is
    whether the value read at the resolved height is non-nil, and the
    query answers with code 0 and the proof, or panics. *)
Theorem C6_matching_proof_or_panic
    (itree : ImmutableTree) (req : RequestQuery) (st : Store) :
  let key := req_Data req in
  let height := getHeight (tree st) req in
  let value := tree_GetVersioned (tree st) key height in
  (∀ found,
     match matchingProof itree key found with
     | inl p =>
         getProofFromTree itree key found st
           = (Ret {| Ops := [CommitmentOp_ProofOp key p] |}, st)
     | inr err =>
         ∃ format, getProofFromTree itree key found st
                     = (Panicked (PanicSprintf format err), st)
     end)
  ∧ (len key ≠ 0%nat → req_Path req = "/key" → req_Prove req = true →
     tree_VersionExists (tree st) height = true →
     tree_GetImmutable (tree st) height = inl itree →
     match matchingProof itree key (not_nil value) with
     | inl p =>
         ∃ res, Store_Query req st = (Ret res, st)
                ∧ res_Code res = 0%N
                ∧ res_Value res = value
                ∧ res_ProofOps res = Some {| Ops := [CommitmentOp_ProofOp key p] |}
     | inr err =>
         ∃ format, Store_Query req st = (Panicked (PanicSprintf format err), st)
     end).
Proof.
  intros key height value. split.
  - intros found. apply getProofFromTree_matching.
  - intros Hlen Hpath Hprove Hex Himm.
    pose proof (getProofFromTree_matching itree key (not_nil value) st) as Hp.
    unfold Store_Query. fold key.
    destruct (Nat.eqb_spec (len key) 0); [contradiction|].
    rewrite Hpath, Hprove. simpl.
    unfold Store_VersionExists, bind, gets. simpl. fold height.
    rewrite Hex. simpl. rewrite Himm. fold value.
    destruct (matchingProof itree key (not_nil value)) as [p|err].
    + rewrite Hp. eexists. split; [reflexivity|]. repeat split.
    + destruct Hp as [format Hp]. exists format. rewrite Hp. reflexivity.
Qed.


Lemma Store_GetImmutable_missing (version : Z) (st : Store) :
  tree_VersionExists (tree st) version = false →
  Store_GetImmutable version st
    = (Ret (inl {| tree := immutableTree zeroImmutableTree |}), st).
Proof.
  intros Hmiss. unfold Store_GetImmutable, Store_VersionExists, bind, gets.
  rewrite Hmiss. reflexivity.
Qed.

Lemma Store_GetImmutable_stored (version : Z) (st : Store) :
  tree_VersionExists (tree st) version = true →
  Store_GetImmutable version st
    = (Ret match tree_GetImmutable (tree st) version with
           | inl iTree => inl {| tree := immutableTree iTree |}
           | inr err => inr err
           end, st).
Proof.
  intros Hex. unfold Store_GetImmutable, Store_VersionExists, bind, gets.
  rewrite Hex. simpl. destruct (tree_GetImmutable (tree st) version); reflexivity.
Qed.

(** C3.  What Export does where the claim asks for an error.  For a
    version that is not stored, GetImmutable hands Export a store over the
    empty tree and no error, the type assertion on that store succeeds,
    and Export takes neither of its two error returns: it goes on to the
    exporter of the empty tree.  The error it does return is the one for
    a stored version whose snapshot the tree fails to produce. *)
Theorem C3_Export_missing_version_returns_no_error
    {wc : WrapperContract} (version : Z) (st : Store) :
  (tree_VersionExists (tree st) version = false →
     Store_GetImmutable version st
       = (Ret (inl {| tree := immutableTree zeroImmutableTree |}), st)
     ∧ as_immutableTree (immutableTree zeroImmutableTree) = Some zeroImmutableTree
     ∧ ∀ err, (Store_Export version st).1 ≠ Ret (inr err))
  ∧ (tree_VersionExists (tree st) version = true →
     ∀ err, tree_GetImmutable (tree st) version = inr err →
       Store_Export version st = (Ret (inr (ErrExportFailed version err)), st)).
Proof.
  split.
  - intros E. split; [now apply Store_GetImmutable_missing|].
    split; [apply immutableTree_assert|].
    intros err. unfold Store_Export.
    erewrite bind_Ret by (apply Store_GetImmutable_missing; exact E).
    simpl. rewrite immutableTree_assert. discriminate.
  - intros E err Herr. unfold Store_Export.
    erewrite bind_Ret by (apply Store_GetImmutable_stored; exact E).
    rewrite Herr. reflexivity.
Qed.




(** C2, as amended.  On the working store, for every key and value that
    pass the validity assertions, Set returns and the Get that follows
    returns the value; for every key, Delete returns and the Get that
    follows returns nil; and on every store Has returns true exactly
    when Get returns a value that is not nil. *)
Theorem C2_Set_Get_Delete_Has
    {mc : MapContract} {dc : DepsContract} (key value : bytes) (st : Store) :
  (isMutableTree (tree st) = true →
   validKey key = true → validValue value = true →
     ∃ st', Store_Set key value st = (Ret tt, st')
            ∧ Store_Get key st' = (Ret value, st'))
  ∧ (isMutableTree (tree st) = true →
     ∃ st', Store_Delete key st = (Ret tt, st')
            ∧ Store_Get key st' = (Ret None, st'))
  ∧ (∃ found, Store_Get key st = (Ret found, st)
              ∧ Store_Has key st = (Ret (not_nil found), st)).
Proof.
  split; [|split].
  - intros Hmut Hk Hv.
    assert (Hnn : value ≠ None).
    { intros ->. rewrite nil_value_invalid in Hv. discriminate. }
    destruct (mutable_Set (tree st) key value Hmut Hnn)
      as [updated [t' [Hset [_ Hget]]]].
    exists {| tree := t' |}. split.
    + unfold Store_Set, AssertValidKey, AssertValidValue, bind, on_tree.
      rewrite Hk, Hv. simpl. rewrite Hset. reflexivity.
    + unfold Store_Get, gets. simpl. rewrite Hget. reflexivity.
  - intros Hmut.
    destruct (mutable_Remove (tree st) key Hmut)
      as [removed [t' [Hrem [_ Hget]]]].
    exists {| tree := t' |}. split.
    + unfold Store_Delete, bind, on_tree. rewrite Hrem. reflexivity.
    + unfold Store_Get, gets. simpl. rewrite Hget. reflexivity.
  - exists (tree_Get (tree st) key). split; [reflexivity|].
    unfold Store_Has, gets. f_equal. f_equal.
    pose proof (has_iff_get (tree st) key) as Hiff.
    destruct (tree_Get (tree st) key) as [v|]; simpl.
    + apply Hiff. discriminate.
    + destruct (tree_Has (tree st) key); [|reflexivity].
      exfalso. now apply Hiff.
Qed.

End StoreProperties.

(** * The reference tree meets the contract *)

Module RefContract.
Import Ref.

Lemma Has_not_nil (t : T) (k : bytes) : Has t k = not_nil (Get t k).
Proof.
  unfold Has, Get. now destruct (contents t !! keyOf k).
Qed.

#[export] Instance map_contract : MapContract (api := api).
Proof.
  split.
  - intros t k. change (Has t k = true ↔ Get t k ≠ None).
    rewrite Has_not_nil. destruct (Get t k); simpl; split; congruence.
  - intros [m|i] k [s|] Hmut Hnn; try discriminate; try congruence.
    eexists _, _. split; [reflexivity|]. split; [reflexivity|].
    simpl. unfold Get. simpl. apply lookup_insert_eq.
  - intros [m|i] k Hmut; try discriminate.
    eexists _, _. split; [reflexivity|]. split; [reflexivity|].
    simpl. unfold Get. simpl. apply lookup_delete_eq.
Qed.

#[export] Instance version_contract : VersionContract (api := api).
Proof.
  split. intros [m|i] v; simpl.
  - intros Hex. apply bool_decide_eq_true in Hex as [c Hc].
    rewrite Hc. eexists. split; reflexivity.
  - intros Hex. rewrite Hex. exists i. split; [reflexivity|].
    now apply Z.eqb_eq.
Qed.

#[export] Instance wrapper_contract : WrapperContract (api := api).
Proof.
  split; try reflexivity.
  - intros i k v. exists (PanicTree "Set"). simpl. now destruct v.
  - intros i k. now exists (PanicTree "Remove").
Qed.

#[export] Instance unreadable_wrapper_contract : WrapperContract (api := unreadable).
Proof.
  split; try reflexivity.
  - intros i k v. exists (PanicTree "Set"). simpl. now destruct v.
  - intros i k. now exists (PanicTree "Remove").
Qed.

Lemma abciCode_nonzero (e : error) : abciCode e ≠ 0%N.
Proof. induction e; simpl; try assumption; discriminate. Qed.

#[export] Instance deps_contract : DepsContract (deps := deps).
Proof.
  split; try reflexivity. intros e. apply abciCode_nonzero.
Qed.

End RefContract.

(** * The theorems on concrete stores *)

Module Concrete.
Import Ref RefContract Scenario.

(** The scenario runs as the spec tells it: two commits give versions 1
    and 2 with different hashes, version 1 still reads "1" for the key a,
    and the working version no longer has it. *)
Example scenario_runs :
  (Store_LastCommitID committed).1
    = Ret (Build_CommitID 1 (Some "a=1;b=2"))
  ∧ (Store_LastCommitID committed_twice).1
    = Ret (Build_CommitID 2 (Some "b=2"))
  ∧ tree_GetVersioned (tree committed_twice) (Some "a") 1 = Some "1"
  ∧ (Store_Get (Some "a") committed_twice).1 = Ret None
  ∧ (Store_Query {| req_Data := Some "a"; req_Path := "/subspace";
                    req_Height := 0; req_Prove := false |} committed).1
    = Ret {| res_Code := 0; res_Log := ""; res_Key := Some "a";
             res_Value := Some "a=1"; res_ProofOps := None;
             res_Height := 1; res_Codespace := "" |}.
Proof. repeat split. Qed.

Lemma C1_getHeight_policy_witness :
  getHeight (tree committed_twice) (keyQuery (Some "b") 0 false) = 1
  ∧ getHeight (tree committed) (keyQuery (Some "b") 0 false) = 1
  ∧ getHeight (tree fresh) (keyQuery (Some "b") 0 false) = 0
  ∧ getHeight (tree committed) (keyQuery (Some "b") 7 false) = 7.
Proof.
  split; [|split; [|split]].
  - exact (proj1 (C1_getHeight_policy (tree committed_twice)
                    (keyQuery (Some "b") 0 false)) eq_refl eq_refl).
  - exact (proj1 (proj2 (C1_getHeight_policy (tree committed)
                           (keyQuery (Some "b") 0 false))) eq_refl eq_refl).
  - exact (proj1 (proj2 (C1_getHeight_policy (tree fresh)
                           (keyQuery (Some "b") 0 false))) eq_refl eq_refl).
  - apply (proj1 (proj2 (proj2 (C1_getHeight_policy (tree committed)
                                  (keyQuery (Some "b") 7 false))))).
    discriminate.
Defined.

(** C2 fails as stated.  Set with the nil key panics and writes
    nothing: Set followed by Get does not return the value, and neither
    does a Get on the store that the panic leaves. *)
Lemma C2_counterexample :
  let key := None in
  let value := Some "1" in
  Store_Set key value fresh = (Panicked InvalidKey, fresh)
  ∧ ((do* Store_Set key value in Store_Get key) fresh).1 ≠ Ret value
  ∧ (Store_Get key (after (Store_Set key value) fresh)).1 ≠ Ret value.
Proof. repeat split; discriminate. Qed.

Lemma C2_Set_Get_Delete_Has_witness :
  (∃ st', Store_Set (Some "a") (Some "1") fresh = (Ret tt, st')
          ∧ Store_Get (Some "a") st' = (Ret (Some "1"), st'))
  ∧ (∃ st', Store_Delete (Some "a") uncommitted = (Ret tt, st')
            ∧ Store_Get (Some "a") st' = (Ret None, st')).
Proof.
  split.
  - apply (C2_Set_Get_Delete_Has (Some "a") (Some "1") fresh); reflexivity.
  - apply (C2_Set_Get_Delete_Has (Some "a") None uncommitted); reflexivity.
Defined.

Lemma C3_Export_missing_version_returns_no_error_witness :
  Store_VersionExists 5 committed = (Ret false, committed)
  ∧ (∀ err, (Store_Export 5 committed).1 ≠ Ret (inr err))
  ∧ Store_Export 1 committed_unreadable
    = (Ret (inr (ErrExportFailed 1 (ErrTree "cannot load root"))),
       committed_unreadable).
Proof.
  split; [reflexivity|]. split.
  - apply (proj1 (C3_Export_missing_version_returns_no_error 5 committed)).
    reflexivity.
  - apply (proj2 (C3_Export_missing_version_returns_no_error (api := unreadable)
                    1 committed_unreadable)); reflexivity.
Defined.

(** C4 fails as stated.  Version 7 is not stored and the path is
    "/key", but the payload is empty: the query is refused with a
    non-zero code, its log is not the one of a missing version and its
    height is not the resolved one. *)
Lemma C4_counterexample :
  let req := keyQuery None 7 false in
  let refusal := QueryResult (Wrap ErrTxDecode "query cannot be zero length") in
  req_Path req = "/key"
  ∧ getHeight (tree committed) req = 7
  ∧ Store_VersionExists 7 committed = (Ret false, committed)
  ∧ Store_Query req committed = (Ret refusal, committed)
  ∧ res_Code refusal ≠ 0%N
  ∧ res_Log refusal ≠ "version does not exist"
  ∧ res_Height refusal ≠ 7.
Proof. repeat split; discriminate. Qed.

Lemma C4_missing_version_is_soft_witness :
  ∃ res, Store_Query (keyQuery (Some "a") 7 true) committed = (Ret res, committed)
         ∧ res_Code res = 0%N
         ∧ res_Log res = "version does not exist"
         ∧ res_Value res = None
         ∧ res_Key res = Some "a"
         ∧ res_Height res = 7.
Proof.
  apply (C4_missing_version_is_soft (keyQuery (Some "a") 7 true) committed).
  - simpl. lia.
  - reflexivity.
  - reflexivity.
Defined.



Lemma C6_matching_proof_or_panic_witness :
  (∃ res, Store_Query (keyQuery (Some "a") 1 true) committed = (Ret res, committed)
          ∧ res_Code res = 0%N
          ∧ res_Value res = Some "1"
          ∧ res_ProofOps res
            = Some {| Ops := [CommitmentOp_ProofOp (Some "a") (ExistenceProof "a" "1")] |})
  ∧ (∃ res, Store_Query (keyQuery (Some "c") 1 true) committed = (Ret res, committed)
            ∧ res_Code res = 0%N
            ∧ res_Value res = None
            ∧ res_ProofOps res
              = Some {| Ops := [CommitmentOp_ProofOp (Some "c") (NonExistenceProof "c")] |}).
Proof.
  assert (Ha : len (Some "a") ≠ 0%nat) by discriminate.
  split.
  - exact (proj2 (C6_matching_proof_or_panic (api := api) (deps := deps)
                    {| it_version := 1; it_items := <["b" := "2"]> (<["a" := "1"]> ∅) |}
                    (keyQuery (Some "a") 1 true) committed)
             Ha eq_refl eq_refl eq_refl eq_refl).
  - assert (Hc : len (Some "c") ≠ 0%nat) by discriminate.
    exact (proj2 (C6_matching_proof_or_panic (api := api) (deps := deps)
                    {| it_version := 1; it_items := <["b" := "2"]> (<["a" := "1"]> ∅) |}
                    (keyQuery (Some "c") 1 true) committed)
             Hc eq_refl eq_refl eq_refl eq_refl).
Defined.


(** C8 fails as stated.  With no commit, the working version holds "1"
    for the key "a", and the "/key" query with height 0 answers with no
    value and the log of a missing version. *)
Lemma C8_counterexample :
  let answer := missingVersionResponse (Some "a") 0 in
  (∀ version, Store_VersionExists version uncommitted = (Ret false, uncommitted))
  ∧ Store_Get (Some "a") uncommitted = (Ret (Some "1"), uncommitted)
  ∧ Store_Query (keyQuery (Some "a") 0 false) uncommitted
    = (Ret answer, uncommitted)
  ∧ res_Value answer = None
  ∧ res_Value answer ≠ Some "1"
  ∧ res_Log answer = "version does not exist".
Proof.
  split.
  - intros version. unfold Store_VersionExists, gets. simpl.
    rewrite lookup_empty. reflexivity.
  - repeat split. discriminate.
Qed.

Lemma C8_query_before_first_commit_witness :
  ∃ res, Store_Query (keyQuery (Some "a") 0 false) uncommitted
           = (Ret res, uncommitted)
         ∧ res_Height res = 0
         ∧ res_Log res = "version does not exist"
         ∧ res_Value res = None
         ∧ res_Code res = 0%N.
Proof.
  apply (C8_query_before_first_commit (keyQuery (Some "a") 0 false) uncommitted).
  - intros version. simpl. rewrite lookup_empty. reflexivity.
  - simpl. lia.
  - reflexivity.
  - reflexivity.
Defined.

End Concrete.

(** * Further properties of the store *)

Section StoreExtras.
Context {api : TreeAPI} {deps : StoreDeps}.

Lemma Store_Query_key_stored (req : RequestQuery) (st : Store) :
  let key := req_Data req in
  let height := getHeight (tree st) req in
  let res := storedVersionResponse key (tree_GetVersioned (tree st) key height) height in
  len key ≠ 0%nat →
  req_Path req = "/key" →
  tree_VersionExists (tree st) height = true →
  Store_Query req st
    = (if negb (req_Prove req) then ret res
       else
         match tree_GetImmutable (tree st) height with
         | inr err =>
             panic (PanicSprintf
               "version exists in store but could not retrieve corresponding versioned tree in store, %s"
               err)
         | inl iTree =>
             let* ops := getProofFromTree iTree key (not_nil (res_Value res)) in
             ret (with_ProofOps res (Some ops))
         end) st.
Proof.
  intros key height res Hlen Hpath Hex. unfold Store_Query. fold key.
  destruct (Nat.eqb_spec (len key) 0); [contradiction|].
  rewrite Hpath. simpl.
  unfold Store_VersionExists. unfold bind at 1. unfold gets at 1.
  unfold bind at 1. unfold gets at 1. simpl. fold height. rewrite Hex. simpl.
  reflexivity.
Qed.

Lemma Store_Query_subspace (req : RequestQuery) (st : Store) :
  let prefix := req_Data req in
  len prefix ≠ 0%nat →
  req_Path req = "/subspace" →
  Store_Query req st
    = (match Pairs_Marshal (tree_Iterator (tree st) prefix (PrefixEndBytes prefix) true) with
       | inr err => Panicked (PanicError (ErrMarshal err))
       | inl bz =>
           Ret (storedVersionResponse prefix bz (getHeight (tree st) req))
       end, st).
Proof.
  intros prefix Hlen Hpath. unfold Store_Query. fold prefix.
  destruct (Nat.eqb_spec (len prefix) 0); [contradiction|].
  rewrite Hpath. simpl.
  unfold KVStorePrefixIterator, Store_Iterator, bind, gets. simpl.
  destruct (Pairs_Marshal _); reflexivity.
Qed.

(** X1. The height of a response can be sent back: a request that repeats
    the resolved height resolves to that same height. *)
Theorem getHeight_idempotent (t : Tree) (req : RequestQuery) :
  getHeight t (with_req_Height req (getHeight t req)) = getHeight t req.
Proof.
  unfold getHeight at 1. simpl.
  destruct (Z.eqb_spec (getHeight t req) 0) as [E|E]; [|reflexivity].
  unfold getHeight in *.
  destruct (Z.eqb_spec (req_Height req) 0) as [E0|E0].
  - reflexivity.
  - contradiction.
Qed.

(** X2. A "/key" query with height 0 and a payload gets the log "version
    does not exist" exactly when the tree has stored neither the version
    before its current one nor its current one. *)
Theorem default_query_missing_iff (req : RequestQuery) (st : Store) :
  len (req_Data req) ≠ 0%nat →
  req_Path req = "/key" →
  req_Height req = 0 →
  let latest := tree_Version (tree st) in
  (∃ res, Store_Query req st = (Ret res, st)
          ∧ res_Log res = "version does not exist")
  ↔ tree_VersionExists (tree st) (sub64 latest 1) = false
    ∧ tree_VersionExists (tree st) latest = false.
Proof.
  intros Hlen Hpath Hzero latest.
  assert (Hh : getHeight (tree st) req
               = if tree_VersionExists (tree st) (sub64 latest 1)
                 then sub64 latest 1 else latest).
  { unfold getHeight. rewrite Hzero. reflexivity. }
  destruct (tree_VersionExists (tree st) (getHeight (tree st) req)) eqn:Hex.
  - split.
    + intros [res [Hq Hlog]].
      rewrite Store_Query_key_stored in Hq by assumption.
      destruct (req_Prove req); simpl in Hq.
      * destruct (tree_GetImmutable _ _) as [iTree|err]; [|discriminate].
        unfold bind in Hq.
        destruct (getProofFromTree _ _ _ st) as [[ops|p] s']; [|discriminate].
        injection Hq as <- _. discriminate.
      * injection Hq as <-. discriminate.
    + intros [H1 H2]. rewrite Hh, H1, H2 in Hex. discriminate.
  - split.
    + intros _. rewrite Hh in Hex.
      destruct (tree_VersionExists (tree st) (sub64 latest 1)) eqn:H1.
      * rewrite H1 in Hex. discriminate.
      * split; [reflexivity|exact Hex].
    + intros _. eexists. split.
      * apply Store_Query_key_missing; assumption.
      * reflexivity.
Qed.

(** X3. Query panics in two situations only: on "/key", when a proof is
    asked for at a stored version and the snapshot or the proof matching
    the lookup cannot be built; on "/subspace", when the pairs cannot be
    marshalled.  In particular a "/key" query without proof always
    returns. *)
Theorem Query_panics_only_when (req : RequestQuery) (st st' : Store) p :
  Store_Query req st = (Panicked p, st') →
  let key := req_Data req in
  let height := getHeight (tree st) req in
  len key ≠ 0%nat
  ∧ ((req_Path req = "/key" ∧ req_Prove req = true
      ∧ tree_VersionExists (tree st) height = true
      ∧ ((∃ err, tree_GetImmutable (tree st) height = inr err)
         ∨ (∃ itree err,
              tree_GetImmutable (tree st) height = inl itree
              ∧ matchingProof itree key
                  (not_nil (tree_GetVersioned (tree st) key height)) = inr err)))
     ∨ (req_Path req = "/subspace"
        ∧ ∃ err, Pairs_Marshal
                   (tree_Iterator (tree st) key (PrefixEndBytes key) true)
                 = inr err)).
Proof.
  intros Hq key height.
  assert (Hlen : len key ≠ 0%nat).
  { intros E. unfold Store_Query in Hq. fold key in Hq. rewrite E in Hq.
    discriminate. }
  split; [exact Hlen|].
  destruct (String.eqb_spec (req_Path req) "/key") as [Hpath|Hpath].
  - left. split; [exact Hpath|].
    destruct (tree_VersionExists (tree st) height) eqn:Hex.
    + rewrite Store_Query_key_stored in Hq by assumption.
      destruct (req_Prove req); simpl in Hq; [|discriminate].
      split; [reflexivity|]. split; [reflexivity|].
      fold key height in Hq.
      destruct (tree_GetImmutable (tree st) height) as [itree|err].
      * right. exists itree.
        pose proof (getProofFromTree_matching itree key
          (not_nil (tree_GetVersioned (tree st) key height)) st) as Hp.
        destruct (matchingProof itree key _) as [pr|err].
        -- unfold bind in Hq. rewrite Hp in Hq. discriminate.
        -- exists err. split; reflexivity.
      * left. now exists err.
    + rewrite Store_Query_key_missing in Hq by assumption. discriminate.
  - right.
    destruct (String.eqb_spec (req_Path req) "/subspace") as [Hsub|Hsub].
    + split; [exact Hsub|].
      rewrite Store_Query_subspace in Hq by assumption. fold key in Hq.
      destruct (Pairs_Marshal _) as [bz|err]; [discriminate|].
      now exists err.
    + exfalso. unfold Store_Query in Hq. fold key in Hq.
      destruct (Nat.eqb_spec (len key) 0); [contradiction|].
      apply String.eqb_neq in Hpath, Hsub.
      unfold bind, gets in Hq. simpl in Hq. rewrite Hpath, Hsub in Hq.
      discriminate.
Qed.

(** X4. A response that Query returns is a hard failure exactly when the
    payload is empty or the path is neither "/key" nor "/subspace"; on
    the two paths, with a payload, every response has code 0. *)
Theorem Query_hard_failure_iff
    {dc : DepsContract} (req : RequestQuery) (st st' : Store) res :
  Store_Query req st = (Ret res, st') →
  res_Code res ≠ 0%N
  ↔ len (req_Data req) = 0%nat
    ∨ (req_Path req ≠ "/key" ∧ req_Path req ≠ "/subspace").
Proof.
  intros Hq.
  destruct (Nat.eqb_spec (len (req_Data req)) 0) as [Hlen|Hlen].
  - unfold Store_Query in Hq. rewrite Hlen in Hq. simpl in Hq.
    injection Hq as <- _. split; [now left|]. intros _.
    apply QueryResult_failure.
  - destruct (String.eqb_spec (req_Path req) "/key") as [Hpath|Hpath].
    + assert (Hcode : res_Code res = 0%N).
      { destruct (tree_VersionExists (tree st) (getHeight (tree st) req)) eqn:Hex.
        - rewrite Store_Query_key_stored in Hq by assumption.
          destruct (req_Prove req); simpl in Hq.
          + destruct (tree_GetImmutable _ _) as [iTree|err]; [|discriminate].
            unfold bind in Hq.
            destruct (getProofFromTree _ _ _ st) as [[ops|p] s']; [|discriminate].
            injection Hq as <- _. reflexivity.
          + injection Hq as <- _. reflexivity.
        - rewrite Store_Query_key_missing in Hq by assumption.
          injection Hq as <- _. reflexivity. }
      split; [congruence|]. intros [?|[? _]]; contradiction.
    + destruct (String.eqb_spec (req_Path req) "/subspace") as [Hsub|Hsub].
      * assert (Hcode : res_Code res = 0%N).
        { rewrite Store_Query_subspace in Hq by assumption.
          destruct (Pairs_Marshal _); [|discriminate].
          injection Hq as <- _. reflexivity. }
        split; [congruence|]. intros [?|[_ ?]]; contradiction.
      * split; [now right|]. intros _.
        unfold Store_Query in Hq.
        destruct (Nat.eqb_spec (len (req_Data req)) 0); [contradiction|].
        apply String.eqb_neq in Hpath, Hsub.
        unfold bind, gets in Hq. simpl in Hq. rewrite Hpath, Hsub in Hq.
        injection Hq as <- _. apply QueryResult_failure.
Qed.

End StoreExtras.

Section StoreExtrasContracts.
Context {api : TreeAPI} {deps : StoreDeps}.

Lemma getHeight_same_history (t1 t2 : Tree) (req : RequestQuery) :
  same_history t1 t2 → getHeight t1 req = getHeight t2 req.
Proof.
  intros (Hv & Hex & _ & _). unfold getHeight.
  rewrite Hv, Hex. reflexivity.
Qed.

(** X5. The answer to a "/key" query is a function of the committed
    history alone: on two stores whose trees have the same current
    version and the same stored versions, whatever their working versions
    hold, the query ends the same way, with the same response or the same
    panic. *)
Theorem key_query_sees_history_only (req : RequestQuery) (st1 st2 : Store) :
  same_history (tree st1) (tree st2) →
  req_Path req = "/key" →
  (Store_Query req st1).1 = (Store_Query req st2).1.
Proof.
  intros Hsame Hpath.
  pose proof (getHeight_same_history _ _ req Hsame) as Hh.
  destruct Hsame as (Hv & Hex & Hget & Himm).
  destruct (Nat.eqb_spec (len (req_Data req)) 0) as [Hlen|Hlen].
  { unfold Store_Query. rewrite Hlen. reflexivity. }
  destruct (tree_VersionExists (tree st1) (getHeight (tree st1) req)) eqn:E1.
  - assert (E2 : tree_VersionExists (tree st2) (getHeight (tree st2) req) = true)
      by (rewrite <- Hh, <- Hex; exact E1).
    rewrite !Store_Query_key_stored by assumption.
    rewrite <- Hh, <- Hget, <- Himm.
    destruct (req_Prove req); simpl; [|reflexivity].
    destruct (tree_GetImmutable (tree st1) _) as [iTree|err]; [|reflexivity].
    unfold bind, getProofFromTree, bind.
    destruct (not_nil _).
    + destruct (it_GetMembershipProof iTree (req_Data req)); reflexivity.
    + destruct (it_GetNonMembershipProof iTree (req_Data req)); reflexivity.
  - assert (E2 : tree_VersionExists (tree st2) (getHeight (tree st2) req) = false)
      by (rewrite <- Hh, <- Hex; exact E1).
    rewrite !Store_Query_key_missing by assumption.
    rewrite Hh. reflexivity.
Qed.

(** X6. A "/subspace" query reads the working store and attaches no
    proof: the key and the value of its response are the prefix and the
    marshalled pairs under that prefix in the working tree, whatever
    height and proof flag the request carries, and its proof field is
    nil. *)
Theorem subspace_reads_working_store
    (req : RequestQuery) (height : Z) (prove : bool) (st st' : Store) res :
  len (req_Data req) ≠ 0%nat →
  req_Path req = "/subspace" →
  Store_Query req st = (Ret res, st') →
  let prefix := req_Data req in
  let again := with_req_Prove (with_req_Height req height) prove in
  Pairs_Marshal (tree_Iterator (tree st) prefix (PrefixEndBytes prefix) true)
    = inl (res_Value res)
  ∧ res_Key res = prefix
  ∧ res_ProofOps res = None
  ∧ ∃ res', Store_Query again st = (Ret res', st)
            ∧ res_Value res' = res_Value res
            ∧ res_Key res' = res_Key res
            ∧ res_ProofOps res' = None.
Proof.
  intros Hlen Hpath Hq prefix again.
  rewrite Store_Query_subspace in Hq by assumption. fold prefix in Hq.
  assert (Hagain : Store_Query again st
    = (match Pairs_Marshal (tree_Iterator (tree st) prefix (PrefixEndBytes prefix) true) with
       | inr err => Panicked (PanicError (ErrMarshal err))
       | inl bz => Ret (storedVersionResponse prefix bz (getHeight (tree st) again))
       end, st)).
  { apply (Store_Query_subspace again st); assumption. }
  destruct (Pairs_Marshal _) as [bz|err]; [|discriminate].
  injection Hq as <- _. simpl.
  repeat split. eexists. split; [exact Hagain|]. repeat split.
Qed.

(** X7. After a Commit that returns, LastCommitID returns the CommitID
    that Commit returned. *)
Theorem Commit_then_LastCommitID
    {sc : SnapshotContract} (st st' : Store) (cid : CommitID) :
  Store_Commit st = (Ret cid, st') →
  Store_LastCommitID st' = (Ret cid, st').
Proof.
  unfold Store_Commit, Store_LastCommitID, bind, on_tree, gets.
  destruct (tree_SaveVersion (tree st)) as [[[[hash version] [err|]]|p] t'] eqn:E;
    try discriminate.
  intros Hq. injection Hq as <- <-. simpl.
  destruct (saved_is_current _ _ _ _ E) as [-> ->]. reflexivity.
Qed.

Lemma Store_Commit_saved (st st' : Store) (cid : CommitID) :
  Store_Commit st = (Ret cid, st') →
  tree_SaveVersion (tree st) = (Ret (Hash cid, Version cid, None), tree st').
Proof.
  unfold Store_Commit, bind, on_tree.
  destruct (tree_SaveVersion (tree st)) as [[[[hash version] [err|]]|p] t'] eqn:E;
    try discriminate.
  intros Hq. injection Hq as <- <-. reflexivity.
Qed.

(** X8. Commit publishes the working version: after a Commit that returns
    version v (not 0), a "/key" query at height v returns, for every key,
    the value the working store held for it when Commit was called. *)
Theorem Commit_publishes_working_version
    {sc : SnapshotContract} (st st' : Store) (cid : CommitID) (key : bytes) :
  Store_Commit st = (Ret cid, st') →
  Version cid ≠ 0 →
  len key ≠ 0%nat →
  Store_Query {| req_Data := key; req_Path := "/key";
                 req_Height := Version cid; req_Prove := false |} st'
    = (Ret (storedVersionResponse key (tree_Get (tree st) key) (Version cid)), st').
Proof.
  intros Hc Hv Hlen. apply Store_Commit_saved in Hc.
  set (req := {| req_Data := key; req_Path := "/key";
                 req_Height := Version cid; req_Prove := false |}).
  assert (Hh : getHeight (tree st') req = Version cid).
  { unfold getHeight. simpl.
    destruct (Z.eqb_spec (Version cid) 0); [contradiction|reflexivity]. }
  rewrite Store_Query_key_stored; simpl; rewrite ?Hh.
  - rewrite (saved_reads_working _ _ _ _ Hc). reflexivity.
  - exact Hlen.
  - reflexivity.
  - exact (saved_exists _ _ _ _ Hc).
Qed.




(** X11. Has follows the writes: on the working store, after Set with a
    valid key and value Has returns true for the key, and after Delete it
    returns false. *)
Theorem Has_after_Set_and_Delete
    {mc : MapContract} {dc : DepsContract} (key value : bytes) (st : Store) :
  isMutableTree (tree st) = true →
  (validKey key = true → validValue value = true →
     (do* Store_Set key value in Store_Has key) st
       = (Ret true, (Store_Set key value st).2))
  ∧ (do* Store_Delete key in Store_Has key) st
      = (Ret false, (Store_Delete key st).2).
Proof.
  intros Hmut. split.
  - intros Hk Hv.
    assert (Hnn : value ≠ None).
    { intros ->. rewrite nil_value_invalid in Hv. discriminate. }
    destruct (mutable_Set (tree st) key value Hmut Hnn)
      as [updated [t' [Hset [_ Hget]]]].
    assert (E : Store_Set key value st = (Ret tt, {| tree := t' |})).
    { unfold Store_Set, AssertValidKey, AssertValidValue, bind, on_tree.
      rewrite Hk, Hv. simpl. rewrite Hset. reflexivity. }
    unfold bind at 1. rewrite E. unfold Store_Has, gets. simpl.
    f_equal. f_equal. apply has_iff_get. rewrite Hget. exact Hnn.
  - destruct (mutable_Remove (tree st) key Hmut)
      as [removed [t' [Hrem [_ Hget]]]].
    assert (E : Store_Delete key st = (Ret tt, {| tree := t' |})).
    { unfold Store_Delete, bind, on_tree. rewrite Hrem. reflexivity. }
    unfold bind at 1. rewrite E. unfold Store_Has, gets. simpl.
    f_equal. f_equal.
    destruct (tree_Has t' key) eqn:Hhas; [|reflexivity].
    apply has_iff_get in Hhas. contradiction.
Qed.

(** X12. Under the contract between lookups and proofs the sanity panics
    of Query are out of reach: every "/key" query with a payload returns
    a response with code 0, and when it asks for a proof at a stored
    version the response carries exactly one proof operation. *)
Theorem key_query_returns
    {vc : VersionContract} {pc : ProofContract} (req : RequestQuery) (st : Store) :
  len (req_Data req) ≠ 0%nat →
  req_Path req = "/key" →
  ∃ res, Store_Query req st = (Ret res, st)
         ∧ res_Code res = 0%N
         ∧ res_Height res = getHeight (tree st) req
         ∧ (req_Prove req = true →
            tree_VersionExists (tree st) (getHeight (tree st) req) = true →
            ∃ op, res_ProofOps res = Some {| Ops := [op] |}).
Proof.
  intros Hlen Hpath.
  destruct (tree_VersionExists (tree st) (getHeight (tree st) req)) eqn:Hex.
  - rewrite Store_Query_key_stored by assumption.
    destruct (req_Prove req); simpl.
    + destruct (exists_GetImmutable _ _ Hex) as [itree [Himm _]].
      rewrite Himm.
      pose proof (snapshot_reads _ _ _ (req_Data req) Himm) as Hread.
      pose proof (getProofFromTree_matching itree (req_Data req)
        (not_nil (tree_GetVersioned (tree st) (req_Data req)
                    (getHeight (tree st) req))) st) as Hp.
      assert (Hok : ∃ pr, matchingProof itree (req_Data req)
        (not_nil (tree_GetVersioned (tree st) (req_Data req)
                    (getHeight (tree st) req))) = inl pr).
      { unfold matchingProof. rewrite Hread.
        destruct (it_Get itree (req_Data req)) eqn:Hg; simpl.
        - apply membership_of_present. rewrite Hg. discriminate.
        - apply non_membership_of_absent. exact Hg. }
      destruct Hok as [pr Hok]. rewrite Hok in Hp.
      unfold bind. rewrite Hp. eexists. split; [reflexivity|].
      repeat split. intros _ _. eexists. reflexivity.
    + eexists. split; [reflexivity|]. repeat split. intros H. discriminate.
  - rewrite Store_Query_key_missing by assumption.
    eexists. split; [reflexivity|]. repeat split. intros _ H. discriminate.
Qed.

End StoreExtrasContracts.

Section StoreImportProperties.
Context {api : TreeAPI} {imp : ImportAPI}.

(** X13. Import needs the working tree: on every store that GetImmutable
    returns, for a stored version or not, Import returns the error
    "unable to find mutable tree", neither an importer nor a panic, and
    leaves the view as it is; on a store over the mutable tree it is the
    Import of the tree. *)
Theorem Import_needs_mutable_tree
    {wc : WrapperContract} (version target : Z) (st st' istore : Store) :
  Store_GetImmutable version st = (Ret (inl istore), st') →
  Store_Import target istore = (Ret (inr ErrNoMutableTree), istore)
  ∧ (isMutableTree (tree st) = true →
     Store_Import target st = (Ret (mt_Import (tree st) target), st)).
Proof.
  intros Hget. split.
  - assert (Hview : ∃ itree, istore = {| tree := immutableTree itree |}).
    { unfold Store_GetImmutable, Store_VersionExists, bind, gets in Hget.
      destruct (tree_VersionExists (tree st) version); simpl in Hget.
      - destruct (tree_GetImmutable (tree st) version) as [itree|err];
          [|discriminate].
        injection Hget as <- _. now exists itree.
      - injection Hget as <- _. now exists zeroImmutableTree. }
    destruct Hview as [itree ->].
    unfold Store_Import, bind, gets. simpl.
    rewrite immutableTree_not_mutable. reflexivity.
  - intros Hmut. unfold Store_Import, bind, gets. simpl. rewrite Hmut.
    reflexivity.
Qed.

End StoreImportProperties.

(** * Properties of the server utilities *)

Lemma land_pow2_eq_0 (a n : Z) :
  0 ≤ n → Z.land a (2 ^ n) = 0 ↔ Z.testbit a n = false.
Proof.
  intros Hn. split.
  - intros E.
    assert (H : Z.testbit (Z.land a (2 ^ n)) n = false)
      by (rewrite E; apply Z.bits_0).
    rewrite Z.land_spec, Z.pow2_bits_true, andb_true_r in H by exact Hn.
    exact H.
  - intros E. apply Z.bits_inj'. intros m Hm.
    rewrite Z.land_spec, Z.bits_0.
    rewrite Z.pow2_bits_eqb by exact Hn.
    destruct (Z.eqb_spec n m) as [->|_].
    + rewrite E. reflexivity.
    + apply andb_false_r.
Qed.

Module ServerProperties.
Import Server.

Section Network.
Context {netip : NetIP}.

Lemma firstExternal_None (addrs : list Addr) :
  firstExternal addrs = None ↔ ∀ addr ip4, addr ∈ addrs → ¬ external addr ip4.
Proof.
  induction addrs as [|addr rest IH]; simpl.
  - split; [|reflexivity]. intros _ addr ip4 Hin. inversion Hin.
  - split.
    + intros Hnone a ip4 Hin [ip (Hip & Hlo & H4)].
      apply elem_of_cons in Hin as [->|Hin].
      * rewrite Hip, Hlo, H4 in Hnone. discriminate.
      * assert (Hrest : firstExternal rest = None).
        { destruct (addrToIP addr) as [ip'|]; [|exact Hnone].
          destruct (IsLoopback ip'); [exact Hnone|].
          destruct (To4 ip'); [discriminate|exact Hnone]. }
        apply (proj1 IH Hrest a ip4 Hin). now exists ip.
    + intros Hall.
      assert (Hrest : firstExternal rest = None).
      { apply IH. intros a ip4 Hin. apply Hall. now apply list_elem_of_further. }
      destruct (addrToIP addr) as [ip|] eqn:Hip; [|exact Hrest].
      destruct (IsLoopback ip) eqn:Hlo; [exact Hrest|].
      destruct (To4 ip) as [ip4|] eqn:H4; [|exact Hrest].
      exfalso. apply (Hall addr ip4); [apply list_elem_of_here|].
      now exists ip.
Qed.

Lemma firstExternal_Some (addrs : list Addr) (s : string) :
  firstExternal addrs = Some s →
  ∃ addr ip4, addr ∈ addrs ∧ external addr ip4 ∧ s = IP_String ip4.
Proof.
  induction addrs as [|addr rest IH]; simpl; [discriminate|].
  intros Hs.
  assert (Hrest : firstExternal rest = Some s →
    ∃ a ip4, a ∈ addr :: rest ∧ external a ip4 ∧ s = IP_String ip4).
  { intros H. destruct (IH H) as (a & ip4 & Hin & Hext & ->).
    exists a, ip4. split; [now apply list_elem_of_further|]. now split. }
  destruct (addrToIP addr) as [ip|] eqn:Hip; [|now apply Hrest].
  destruct (IsLoopback ip) eqn:Hlo; [now apply Hrest|].
  destruct (To4 ip) as [ip4|] eqn:H4; [|now apply Hrest].
  injection Hs as <-. exists addr, ip4.
  split; [apply list_elem_of_here|]. split; [|reflexivity]. now exists ip.
Qed.

(** X14. An interface is kept exactly when its up bit is set and its
    loopback bit is clear; no other flag matters. *)
Theorem skipInterface_false_iff (iface : Interface) :
  skipInterface iface = false
  ↔ Z.testbit (Flags iface) 0 = true ∧ Z.testbit (Flags iface) 2 = false.
Proof.
  unfold skipInterface, FlagUp, FlagLoopback.
  pose proof (land_pow2_eq_0 (Flags iface) 0 ltac:(lia)) as Hup.
  pose proof (land_pow2_eq_0 (Flags iface) 2 ltac:(lia)) as Hlo.
  change (2 ^ 0) with 1 in Hup. change (2 ^ 2) with 4 in Hlo.
  destruct (Z.eqb_spec (Z.land (Flags iface) 1) 0) as [E1|E1].
  - apply Hup in E1. rewrite E1. split; [discriminate|]. intros [? _]. discriminate.
  - assert (Hbit : Z.testbit (Flags iface) 0 = true).
    { destruct (Z.testbit (Flags iface) 0) eqn:B; [reflexivity|].
      exfalso. apply E1, Hup. reflexivity. }
    destruct (Z.eqb_spec (Z.land (Flags iface) 4) 0) as [E2|E2]; simpl.
    + apply Hlo in E2. split; [now intros _|reflexivity].
    + split; [discriminate|]. intros [_ B]. exfalso. apply E2, Hlo, B.
Qed.

(** X15. What ExternalIP returns is the IPv4 form, written out, of an
    address that is not a loopback address and belongs to an interface
    that is up and is not a loopback interface. *)
Theorem ExternalIP_sound (ifaces : list Interface) (s : string) :
  ExternalIP (inl ifaces) = inl s →
  ∃ iface addrs addr ip4,
    iface ∈ ifaces ∧ skipInterface iface = false
    ∧ Addrs iface = inl addrs ∧ addr ∈ addrs
    ∧ external addr ip4 ∧ s = IP_String ip4.
Proof.
  simpl. induction ifaces as [|iface rest IH]; simpl; [discriminate|].
  intros Hs.
  assert (Hrest : scanInterfaces rest = inl s →
    ∃ i addrs addr ip4,
      i ∈ iface :: rest ∧ skipInterface i = false
      ∧ Addrs i = inl addrs ∧ addr ∈ addrs
      ∧ external addr ip4 ∧ s = IP_String ip4).
  { intros H. destruct (IH H) as (i & addrs & addr & ip4 & Hin & Hrest).
    exists i, addrs, addr, ip4. split; [now apply list_elem_of_further|].
    exact Hrest. }
  destruct (skipInterface iface) eqn:Hskip; [now apply Hrest|].
  destruct (Addrs iface) as [addrs|err] eqn:Haddrs; [|discriminate].
  destruct (firstExternal addrs) as [s'|] eqn:Hfirst; [|now apply Hrest].
  injection Hs as <-.
  destruct (firstExternal_Some _ _ Hfirst) as (addr & ip4 & Hin & Hext & ->).
  exists iface, addrs, addr, ip4.
  split; [apply list_elem_of_here|]. repeat split; assumption.
Qed.

Lemma scanInterfaces_silent (quiet rest : list Interface) :
  Forall silent quiet →
  scanInterfaces (quiet ++ rest) = scanInterfaces rest.
Proof.
  induction 1 as [|iface quiet Hs _ IH]; simpl; [reflexivity|].
  destruct Hs as [Hskip|(addrs & Haddrs & Hnone)].
  - rewrite Hskip. exact IH.
  - destruct (skipInterface iface); [exact IH|].
    rewrite Haddrs, Hnone. exact IH.
Qed.

(** X16. The first eligible address of the first eligible interface is
    the result: interfaces that are skipped or list no eligible address
    are passed over, and so are the addresses before the first one that
    holds a non-loopback IPv4 address. *)
Theorem ExternalIP_first_eligible
    (quiet rest : list Interface) (iface : Interface)
    (before after : list Addr) (addr : Addr) (ip4 : IP) :
  Forall silent quiet →
  skipInterface iface = false →
  Addrs iface = inl (before ++ addr :: after)%list →
  (∀ a ip, a ∈ before → ¬ external a ip) →
  external addr ip4 →
  ExternalIP (inl (quiet ++ iface :: rest)%list) = inl (IP_String ip4).
Proof.
  intros Hquiet Hskip Haddrs Hbefore (ip & Hip & Hlo & H4). simpl.
  rewrite scanInterfaces_silent by exact Hquiet. simpl.
  rewrite Hskip, Haddrs.
  assert (Hfirst : firstExternal (before ++ addr :: after) = Some (IP_String ip4)).
  { clear Haddrs. induction before as [|a before IH]; simpl.
    - rewrite Hip, Hlo, H4. reflexivity.
    - assert (Hrest : firstExternal (before ++ addr :: after) = Some (IP_String ip4)).
      { apply IH. intros a' ip' Hin. apply Hbefore. now apply list_elem_of_further. }
      destruct (addrToIP a) as [ipa|] eqn:Ha; [|exact Hrest].
      destruct (IsLoopback ipa) eqn:Hla; [exact Hrest|].
      destruct (To4 ipa) as [ipa4|] eqn:H4a; [|exact Hrest].
      exfalso. apply (Hbefore a ipa4); [apply list_elem_of_here|]. now exists ipa. }
  rewrite Hfirst. reflexivity.
Qed.

(** X17. When every interface is skipped or lists no eligible address,
    ExternalIP fails with "are you connected to the network?"; so it does
    on a machine without interfaces. *)
Theorem ExternalIP_not_connected (ifaces : list Interface) :
  Forall silent ifaces →
  ExternalIP (inl ifaces) = inr ErrNotConnected.
Proof.
  intros Hquiet. simpl.
  rewrite <- (app_nil_r ifaces).
  rewrite scanInterfaces_silent by exact Hquiet. reflexivity.
Qed.

(** X18. An interface that is down or is a loopback interface is never
    asked for its addresses: wherever it stands in the list, the result
    is the one without it, also when listing its addresses would fail. *)
Theorem ExternalIP_skips_without_listing
    (front back : list Interface) (iface : Interface) :
  skipInterface iface = true →
  ExternalIP (inl (front ++ iface :: back)%list) = ExternalIP (inl (front ++ back)%list).
Proof.
  intros Hskip. simpl.
  induction front as [|i front IH]; simpl.
  - rewrite Hskip. reflexivity.
  - rewrite IH. reflexivity.
Qed.

(** X19. An error from listing the addresses of an interface that is not
    skipped ends the search with that error, when no earlier interface
    has given an address, whatever the later interfaces hold. *)
Theorem ExternalIP_listing_error
    (quiet rest : list Interface) (iface : Interface) (err : net_error) :
  Forall silent quiet →
  skipInterface iface = false →
  Addrs iface = inr err →
  ExternalIP (inl (quiet ++ iface :: rest)%list) = inr err.
Proof.
  intros Hquiet Hskip Haddrs. simpl.
  rewrite scanInterfaces_silent by exact Hquiet. simpl.
  rewrite Hskip, Haddrs. reflexivity.
Qed.

End Network.

(** X20. A context that SetCmdServerContext stores is the one
    GetServerContextFromCmd finds: when Set returns no error, Get returns
    the pointer held by the command, what it points to is a copy of the
    context that was given, and no other context in memory has changed. *)
Theorem SetCmdServerContext_then_Get
    {Viper Config Logger : Type} (defaults : Context (Viper := Viper)
       (Config := Config) (Logger := Logger))
    (cmd : Command) (serverCtx : positive) (mem mem' : Memory) :
  SetCmdServerContext cmd serverCtx mem = (Ret None, mem') →
  ∃ serverCtxPtr,
    cmd_Context cmd = Some (Some serverCtxPtr)
    ∧ GetServerContextFromCmd defaults cmd mem' = (Ret serverCtxPtr, mem')
    ∧ mem' !! serverCtxPtr = mem !! serverCtx
    ∧ is_Some (mem !! serverCtx)
    ∧ ∀ other, other ≠ serverCtxPtr → mem' !! other = mem !! other.
Proof.
  unfold SetCmdServerContext, GetServerContextFromCmd, contextValue, bind,
    ret, panic.
  destruct (cmd_Context cmd) as [[p|]|]; simpl;
    try (intros Hq; discriminate Hq).
  destruct (mem !! serverCtx) as [c|] eqn:Hc; [|intros Hq; discriminate Hq].
  destruct (mem !! p) as [old|] eqn:Hold; intros Hq; [|discriminate Hq].
  injection Hq as <-.
  exists p. split; [reflexivity|]. split; [reflexivity|].
  unfold Memory in *.
  split; [apply lookup_insert_eq|]. split; [eauto|].
  intros other Hne. now apply lookup_insert_ne.
Qed.

(** X21. The backend is the first setting that is not empty among
    "app-db-backend", "db-backend" and the default; it is never the empty
    string when the default is not. *)
Theorem GetAppDBBackend_first_nonempty
    {V : Type} (ToString : V → string) (GoLevelDBBackend : string)
    (opts : string → V) :
  let nonempty := λ s : string, negb (String.length s =? 0)%nat in
  GetAppDBBackend ToString GoLevelDBBackend opts
    = default GoLevelDBBackend
        (List.find nonempty
           [ToString (opts "app-db-backend"); ToString (opts "db-backend")])
  ∧ (GoLevelDBBackend ≠ "" →
     GetAppDBBackend ToString GoLevelDBBackend opts ≠ "").
Proof.
  intros nonempty. unfold GetAppDBBackend. simpl. unfold nonempty.
  split.
  - destruct (String.length (ToString (opts "app-db-backend")) =? 0)%nat eqn:Ea;
      simpl.
    + destruct (String.length (ToString (opts "db-backend")) =? 0)%nat; reflexivity.
    + rewrite Ea. reflexivity.
  - intros Hdef.
    destruct (String.length (ToString (opts "app-db-backend")) =? 0)%nat eqn:Ea;
      simpl.
    + destruct (String.length (ToString (opts "db-backend")) =? 0)%nat eqn:Eb;
        simpl; [exact Hdef|].
      intros E. rewrite E in Eb. discriminate.
    + rewrite Ea. simpl. intros E. rewrite E in Ea. discriminate.
Qed.

End ServerProperties.

(** * The reference tree meets the further contracts *)

Module RefContractMore.
Import Ref.

Lemma SaveVersion_inv (t t' : T) hash v :
  SaveVersion t = (Ret (hash, v, None), t') →
  ∃ m, t = Mutable m ∧ v = nextVersion m ∧ hash = digest (working m)
       ∧ t' = Mutable {| working := working m; version := v;
                         initialVersion := initialVersion m;
                         versions := <[v := working m]> (versions m) |}.
Proof.
  destruct t as [m|i]; simpl; [|discriminate].
  intros H. injection H as <- <- <-. now exists m.
Qed.

#[export] Instance snapshot_contract : SnapshotContract (api := api).
Proof.
  split; intros t t' hash v H;
    apply SaveVersion_inv in H as (m & -> & Hv & -> & ->); simpl.
  - split; [reflexivity|]. rewrite lookup_insert_eq. reflexivity.
  - rewrite lookup_insert_eq. reflexivity.
  - intros key. rewrite lookup_insert_eq. reflexivity.
  - intros other Hne. rewrite lookup_insert_ne by congruence.
    split; [reflexivity|]. intros key. reflexivity.
Qed.

#[export] Instance proof_contract : ProofContract (api := api).
Proof.
  split.
  - intros [m|i] v itree key; simpl.
    + destruct (versions m !! v) as [c|]; [|discriminate].
      intros H. injection H as <-. reflexivity.
    + destruct (it_version i =? v)%Z; [|discriminate].
      intros H. injection H as <-. reflexivity.
  - intros itree key. simpl. unfold Get, GetMembershipProof. simpl.
    destruct (it_items itree !! keyOf key); [eauto|congruence].
  - intros itree key. simpl. unfold Get, GetNonMembershipProof. simpl.
    intros ->. eauto.
Qed.

End RefContractMore.

(** * The further theorems on concrete inputs *)

Module ConcreteMore.
Import Ref RefMore RefContract RefContractMore Scenario.

Lemma default_query_missing_iff_witness :
  (∃ res, Store_Query (keyQuery (Some "a") 0 false) uncommitted
            = (Ret res, uncommitted)
          ∧ res_Log res = "version does not exist")
  ↔ tree_VersionExists (tree uncommitted) (sub64 0 1) = false
    ∧ tree_VersionExists (tree uncommitted) 0 = false.
Proof.
  assert (Ha : len (Some "a") ≠ 0%nat) by discriminate.
  exact (default_query_missing_iff (keyQuery (Some "a") 0 false) uncommitted
           Ha eq_refl eq_refl).
Defined.

Lemma Query_panics_only_when_witness :
  req_Prove (keyQuery (Some "a") 1 true) = true
  ∧ tree_VersionExists (tree committed_unreadable) 1 = true
  ∧ ∃ err, tree_GetImmutable (tree committed_unreadable) 1 = inr err.
Proof.
  destruct (Query_panics_only_when (api := unreadable) (deps := unreadable_deps)
              (keyQuery (Some "a") 1 true) committed_unreadable committed_unreadable
              (PanicSprintf
                 "version exists in store but could not retrieve corresponding versioned tree in store, %s"
                 (ErrTree "cannot load root"))
              eq_refl)
    as [_ [(_ & Hprove & Hex & [Herr|(itree & err & Himm & _)])|(Hpath & _)]].
  - split; [exact Hprove|]. split; [exact Hex|]. exact Herr.
  - discriminate Himm.
  - discriminate Hpath.
Defined.

Lemma Query_hard_failure_iff_witness :
  res_Code (QueryResult (Wrapf ErrUnknownRequest "unexpected query path: %v" "/store"))
    ≠ 0%N
  ↔ len (Some "a") = 0%nat ∨ ("/store" ≠ "/key" ∧ "/store" ≠ "/subspace").
Proof.
  exact (Query_hard_failure_iff
           {| req_Data := Some "a"; req_Path := "/store"; req_Height := 1;
              req_Prove := false |}
           committed committed _ eq_refl).
Defined.

Lemma key_query_sees_history_only_witness :
  (Store_Get (Some "c") committed_twice).1 ≠ (Store_Get (Some "c") committed_then_written).1
  ∧ ∀ key height prove,
      (Store_Query (keyQuery key height prove) committed_twice).1
      = (Store_Query (keyQuery key height prove) committed_then_written).1.
Proof.
  split; [discriminate|]. intros key height prove.
  apply (key_query_sees_history_only (keyQuery key height prove)
           committed_twice committed_then_written).
  - repeat split.
  - reflexivity.
Defined.

Lemma subspace_reads_working_store_witness :
  Pairs_Marshal (tree_Iterator (tree committed_then_written) (Some "c")
                   (PrefixEndBytes (Some "c")) true) = inl (Some "c=3")
  ∧ ∃ res', Store_Query (subspaceQuery (Some "c") 2 true) committed_then_written
              = (Ret res', committed_then_written)
            ∧ res_Value res' = Some "c=3".
Proof.
  assert (Hc : len (Some "c") ≠ 0%nat) by discriminate.
  destruct (subspace_reads_working_store (api := api) (deps := deps)
              (subspaceQuery (Some "c") 1 false)
              2 true committed_then_written committed_then_written
              (storedVersionResponse (Some "c") (Some "c=3") 1)
              Hc eq_refl eq_refl)
    as (Hm & _ & _ & res' & Hq & Hv & _).
  split; [exact Hm|]. exists res'. split; [exact Hq|exact Hv].
Defined.

Lemma Commit_then_LastCommitID_witness :
  ∃ cid st', Store_Commit committed = (Ret cid, st')
             ∧ Store_LastCommitID st' = (Ret cid, st').
Proof.
  exists (Build_CommitID 2 (Some "a=1;b=2")), (after Store_Commit committed).
  split; [reflexivity|].
  apply (Commit_then_LastCommitID committed). reflexivity.
Defined.

Lemma Commit_publishes_working_version_witness :
  Store_Query (keyQuery (Some "a") 1 false) committed
  = (Ret (storedVersionResponse (Some "a") (Some "1") 1), committed).
Proof.
  assert (Ha : len (Some "a") ≠ 0%nat) by discriminate.
  assert (H1 : 1 ≠ 0) by discriminate.
  exact (Commit_publishes_working_version
           (after (Store_Set (Some "b") (Some "2")) uncommitted) committed
           (Build_CommitID 1 (Some "a=1;b=2")) (Some "a") eq_refl H1 Ha).
Defined.



Lemma Has_after_Set_and_Delete_witness :
  (do* Store_Set (Some "c") (Some "3") in Store_Has (Some "c")) committed
    = (Ret true, after (Store_Set (Some "c") (Some "3")) committed)
  ∧ (do* Store_Delete (Some "a") in Store_Has (Some "a")) committed
    = (Ret false, after (Store_Delete (Some "a")) committed).
Proof.
  split.
  - apply (Has_after_Set_and_Delete (Some "c") (Some "3") committed); reflexivity.
  - apply (Has_after_Set_and_Delete (Some "a") (Some "3") committed). reflexivity.
Defined.

Lemma key_query_returns_witness :
  ∃ res, Store_Query (keyQuery (Some "zz") 2 true) committed_twice
           = (Ret res, committed_twice)
         ∧ res_Code res = 0%N
         ∧ res_Height res = 2
         ∧ ∃ op, res_ProofOps res = Some {| Ops := [op] |}.
Proof.
  assert (Hz : len (Some "zz") ≠ 0%nat) by discriminate.
  destruct (key_query_returns (keyQuery (Some "zz") 2 true) committed_twice
              Hz eq_refl)
    as (res & Hq & Hcode & Hh & Hops).
  exists res. split; [exact Hq|]. split; [exact Hcode|]. split; [exact Hh|].
  apply Hops; reflexivity.
Defined.

Lemma Import_needs_mutable_tree_witness :
  Store_Import 1 (view zero) = (Ret (inr ErrNoMutableTree), view zero)
  ∧ Store_Import 1 fresh = (Ret (inl (empty, 1)), fresh)
  ∧ Store_Import 3 committed = (Ret (inr (ErrTree "tree must be empty")), committed).
Proof.
  split; [|split].
  - exact (proj1 (Import_needs_mutable_tree 5 1 committed committed (view zero)
                    eq_refl)).
  - exact (proj2 (Import_needs_mutable_tree 5 1 fresh fresh (view zero) eq_refl)
             eq_refl).
  - exact (proj2 (Import_needs_mutable_tree 5 3 committed committed (view zero)
                    eq_refl) eq_refl).
Defined.

End ConcreteMore.

Module ServerConcrete.
Import Server ServerProperties.

Lemma silent_down0 : silent down0.
Proof. left. reflexivity. Qed.

Lemma silent_lo : silent lo.
Proof. left. reflexivity. Qed.

Lemma ExternalIP_sound_witness :
  ∃ iface addrs addr ip4,
    iface ∈ [down0; lo; eth0] ∧ skipInterface iface = false
    ∧ Addrs iface = inl addrs ∧ addr ∈ addrs
    ∧ external addr ip4 ∧ "10.0.0.7" = IP_String ip4.
Proof.
  exact (ExternalIP_sound [down0; lo; eth0] "10.0.0.7" eq_refl).
Defined.

Lemma ExternalIP_first_eligible_witness :
  ExternalIP (inl [down0; lo; eth0; wlan0]) = inl "10.0.0.7".
Proof.
  refine (ExternalIP_first_eligible [down0; lo] [wlan0] eth0
            [IPNet (Some [0;0;0;0; 0;0;0;0; 0;0;0;0; 0;0;0;9]) ""] []
            (IPNet (Some [10; 0; 0; 7]) "") [10; 0; 0; 7] _ eq_refl eq_refl _ _).
  - repeat constructor; left; reflexivity.
  - intros a ip Hin [ip' (Hip & _ & H4)].
    apply list_elem_of_singleton in Hin as ->.
    injection Hip as <-. discriminate H4.
  - exists [10; 0; 0; 7]. repeat split.
Defined.

Lemma ExternalIP_not_connected_witness :
  ExternalIP (inl [down0; lo]) = inr ErrNotConnected
  ∧ ExternalIP (inl []) = inr ErrNotConnected.
Proof.
  split.
  - apply (ExternalIP_not_connected [down0; lo]).
    repeat constructor; left; reflexivity.
  - apply (ExternalIP_not_connected []). constructor.
Defined.

Lemma ExternalIP_skips_without_listing_witness :
  ExternalIP (inl [lo; down0; eth0]) = ExternalIP (inl [lo; eth0]).
Proof.
  exact (ExternalIP_skips_without_listing [lo] [eth0] down0 eq_refl).
Defined.

Lemma ExternalIP_listing_error_witness :
  ExternalIP (inl [down0; wlan0; eth0]) = inr (ErrSyscall "permission denied").
Proof.
  refine (ExternalIP_listing_error [down0] [eth0] wlan0
            (ErrSyscall "permission denied") _ eq_refl eq_refl).
  repeat constructor; left; reflexivity.
Defined.

Lemma SetCmdServerContext_then_Get_witness :
  let mem' := <[1%positive := customContext]> mem0 in
  SetCmdServerContext cmd0 2%positive mem0 = (Ret None, mem')
  ∧ GetServerContextFromCmd defaultContext cmd0 mem' = (Ret 1%positive, mem')
  ∧ mem' !! 1%positive = Some customContext.
Proof.
  intros mem'.
  destruct (SetCmdServerContext_then_Get defaultContext cmd0 2%positive mem0 mem'
              eq_refl)
    as (p & Hp & Hget & Hread & _).
  injection Hp as <-.
  split; [reflexivity|]. split; [exact Hget|].
  exact (eq_trans Hread eq_refl).
Defined.

Lemma GetAppDBBackend_first_nonempty_witness :
  let opts := λ key : string, if String.eqb key "db-backend" then "rocksdb" else "" in
  GetAppDBBackend id "goleveldb" opts = "rocksdb"
  ∧ GetAppDBBackend id "goleveldb" opts ≠ "".
Proof.
  intros opts. split.
  - exact (proj1 (GetAppDBBackend_first_nonempty id "goleveldb" opts)).
  - apply (proj2 (GetAppDBBackend_first_nonempty id "goleveldb" opts)).
    discriminate.
Defined.

End ServerConcrete.
